(** * Notebook change detection and batch rebuild

    A shallow embedding of the two CI scripts of the course repository:

    - [scripts/parse_commit.py]  (module [ParseCommit]): reads
      [changed_files.txt], keeps the notebook paths and writes them to
      [changed_notebooks.txt];
    - [scripts/run_notebooks.py] (module [RunNotebooks]): re-executes the
      notebooks named on the command line and logs which ones built.

    Module [Py] holds the Python built-ins the scripts call ([str.strip],
    [str.endswith], [sorted], [os.path.normpath], ...), module [Os] the
    process state (file system, clock, pending alarm) with a small
    state-and-exception monad.  The properties follow in [PyFacts],
    [OsFacts], [ParseCommitSpec] and [RunNotebooksSpec], with further ones
    in [ParseCommitMore] and [RunNotebooksMore].  Module [CloudMasks] holds
    the one computation of [in-class-demos/wk08-landsat-cloud-masks.py] that
    does not go through a plotting or raster library, the bounds of the
    colour bins; its properties are in [CloudMasksSpec].

    Conventions.  A Python [str] is a [string]; each character stands for
    one code point below 256.  Time is a logical clock in seconds, moved by
    the execution engine and by the lines of the script at which
    [RunNotebooks.pause] stands; the SIGALRM handler raises wherever the
    script is when the alarm falls due.  Left out of the embedding: what
    [print] and [traceback.print_exception] write to the console (the time
    they take is kept), the unused [path_root] of [generate_paths], and the
    tests [if not nb is None] of the two log writers, which hold for every
    [str]. *)

From Stdlib Require Import Ascii NArith QArith.
From stdpp Require Import base list strings sorting gmap.


(** ** Python built-ins *)

Module Py.

(** [str.isspace] on one character: the code points below 256 that
    CPython classifies as whitespace. *)
Definition isspace (c : ascii) : bool :=
  let n := N_of_ascii c in
  ((9 <=? n) && (n <=? 13) || (28 <=? n) && (n <=? 32)
   || (n =? 133) || (n =? 160))%N.

Fixpoint lstrip (s : string) : string :=
  match s with
  | "" => ""
  | String c s' => if isspace c then lstrip s' else s
  end.

Fixpoint rstrip (s : string) : string :=
  match s with
  | "" => ""
  | String c s' =>
      match rstrip s' with
      | "" => if isspace c then "" else String c ""
      | r => String c r
      end
  end.

(** [s.strip()] *)
Definition strip (s : string) : string := rstrip (lstrip s).

(** [s.startswith(pre)] *)
Fixpoint startswith (s pre : string) {struct pre} : bool :=
  match pre, s with
  | "", _ => true
  | String a pre', String b s' => if decide (a = b) then startswith s' pre' else false
  | String _ _, "" => false
  end.

(** [s.endswith(suf)] *)
Fixpoint endswith (s suf : string) : bool :=
  if decide (s = suf) then true
  else match s with
       | "" => false
       | String _ s' => endswith s' suf
       end.

(** [sub in s] on strings: substring test. *)
Fixpoint contains (sub s : string) : bool :=
  if startswith s sub then true
  else match s with
       | "" => false
       | String _ s' => contains sub s'
       end.

(** [f.readlines()] of a file opened in text mode: the lines keep their
    terminator, and universal newlines turn CR LF and a lone CR into LF. *)
Definition LF : ascii := "010"%char.
Definition CR : ascii := "013"%char.

Fixpoint readlines (s : string) : list string :=
  match s with
  | "" => []
  | String c s' =>
      if decide (c = LF) then String LF "" :: readlines s'
      else if decide (c = CR) then
        match s' with
        | String c' s'' =>
            if decide (c' = LF) then String LF "" :: readlines s''
            else String LF "" :: readlines s'
        | "" => [String LF ""]
        end
      else match readlines s' with
           | [] => [String c ""]
           | l :: ls => String c l :: ls
           end
  end.

(** [s.split("/")]: the components between the separators; never empty. *)
Fixpoint split_sep (s : string) : list string :=
  match s with
  | "" => [""]
  | String c s' =>
      if decide (c = "/"%char) then "" :: split_sep s'
      else match split_sep s' with
           | [] => [String c ""]
           | h :: t => String c h :: t
           end
  end.

(** [posixpath.basename]: what follows the last separator. *)
Definition basename (p : string) : string := default "" (last (split_sep p)).

(** [posixpath.join(a, b)] *)
Definition join (a b : string) : string :=
  if startswith b "/" then b
  else if bool_decide (a = "") || endswith a "/" then a +:+ b
  else a +:+ "/" +:+ b.

(** One turn of the component loop of [posixpath.normpath]. *)
Definition normpath_step (initial_slashes : nat) (new_comps : list string)
    (comp : string) : list string :=
  if decide (comp = "" ∨ comp = ".") then new_comps
  else if decide (comp ≠ ".." ∨ (initial_slashes = 0 ∧ new_comps = [])
                  ∨ (new_comps ≠ [] ∧ last new_comps = Some ".."))
       then new_comps ++ [comp]
  else if decide (new_comps ≠ []) then removelast new_comps
  else new_comps.

Definition initial_slashes (path : string) : nat :=
  if startswith path "/" then
    if startswith path "//" && negb (startswith path "///") then 2 else 1
  else 0.

(** [posixpath.normpath] *)
Definition normpath (path : string) : string :=
  if decide (path = "") then "."
  else
    let comps := foldl (normpath_step (initial_slashes path)) [] (split_sep path) in
    let path' := String.concat "/" comps in
    let path' := String.concat "" (replicate (initial_slashes path) "/") +:+ path' in
    if decide (path' = "") then "." else path'.

(** [sorted] on a list of [str]: ascending in the code point order of
    strings.  The order is total and antisymmetric, so the sorted
    permutation is unique ([sorted_unique] below) and the sorting algorithm
    does not matter. *)
Definition sorted (l : list string) : list string := merge_sort String.le l.

(** *** Predicates used in the statements *)

(** [s] ends with [suf]. *)
Definition has_suffix (suf s : string) : Prop := ∃ stem, s = stem +:+ suf.

(** [s] holds no separator. *)
Definition no_sep (s : string) : Prop := split_sep s = [s].

(** Every character of [s] is whitespace. *)
Fixpoint all_space (s : string) : bool :=
  match s with
  | "" => true
  | String c s' => isspace c && all_space s'
  end.

(** [s] begins, respectively ends, with a whitespace character. *)
Definition head_space (s : string) : bool :=
  match s with
  | "" => false
  | String c _ => isspace c
  end.

Fixpoint last_space (s : string) : bool :=
  match s with
  | "" => false
  | String c "" => isspace c
  | String _ s' => last_space s'
  end.

(** A proper file name: a component that is not empty, "." or "..". *)
Definition proper (b : string) : Prop := b ≠ "" ∧ b ≠ "." ∧ b ≠ "..".


End Py.

(** ** Process state, exceptions and the operating-system calls

    The file system is a finite map from normalised paths to file texts,
    with a set of directories; there are no symbolic links, and the working
    directory itself is not an entry.  A path reaches its entry only through
    directories that are there.  Reading, creating a directory and removing
    a tree fail as the system calls do; opening a file for writing is taken
    to succeed (the scripts write to their working directory and to the
    scratch directory they have just made). *)

Module Os.

(** A raised instance of Python's [Exception] class: its type name and
    message.  ([SystemExit] is not one; see [RunNotebooks.exit].) *)
Record exn := Exception { exc_type : string; exc_msg : string }.

Inductive result (A : Type) : Type :=
| Ok (a : A)
| Raise (e : exn).
Arguments Ok {A} a.
Arguments Raise {A} e.

(** What the scripts call out to, in call order. *)
Inductive event :=
| EvAlarm (seconds : N)          (* signal.alarm(seconds) *)
| EvRebuild (notebook : string)  (* rebuild_notebook(notebook) entered *)
| EvExecute (staged : string).   (* pm.execute_notebook(staged, staged) *)

(** The state of the process and of its working directory.  Files and
    directories are keyed by their normalised path; [alarm] is the time at
    which a pending SIGALRM is due; [runs] counts the notebook executions
    started so far. *)
Record state := State {
  files : gmap string string;
  dirs : gset string;
  clock : N;
  alarm : option N;
  runs : nat;
  trace : list event
}.

Definition M (A : Type) : Type := state → result A * state.

Definition ret {A} (a : A) : M A := λ σ, (Ok a, σ).
Definition bind {A B} (m : M A) (k : A → M B) : M B :=
  λ σ, match m σ with
       | (Ok a, σ') => k a σ'
       | (Raise e, σ') => (Raise e, σ')
       end.
Definition raise {A} (e : exn) : M A := λ σ, (Raise e, σ).
Definition get : M state := λ σ, (Ok σ, σ).
Definition modify (f : state → state) : M unit := λ σ, (Ok tt, f σ).

(** [try: body  except Exception as ex: handler(ex)] *)
Definition try_except {A} (body : M A) (handler : exn → M A) : M A :=
  λ σ, match body σ with
       | (Ok a, σ') => (Ok a, σ')
       | (Raise e, σ') => handler e σ'
       end.

Global Instance M_ret : MRet M := @ret.
Global Instance M_bind : MBind M := λ A B k m, bind m k.

(** [m] keeps the property [I] of the state, whether it returns or
    raises. *)
Definition keeps {A} (I : state → Prop) (m : M A) : Prop :=
  ∀ σ r σ', m σ = (r, σ') → I σ → I σ'.

(** [for x in xs: body(x)]; an exception leaves the loop. *)
Fixpoint for_ {A} (xs : list A) (body : A → M unit) : M unit :=
  match xs with
  | [] => mret tt
  | x :: xs' => body x;; for_ xs' body
  end.

Definition set_files (f : gmap string string → gmap string string) (σ : state) : state :=
  State (f (files σ)) (dirs σ) (clock σ) (alarm σ) (runs σ) (trace σ).
Definition set_dirs (f : gset string → gset string) (σ : state) : state :=
  State (files σ) (f (dirs σ)) (clock σ) (alarm σ) (runs σ) (trace σ).
Definition emit (ev : event) (σ : state) : state :=
  State (files σ) (dirs σ) (clock σ) (alarm σ) (runs σ) (trace σ ++ [ev]).

(** The entry of the working directory a path resolves to. *)
Definition key (p : string) : string := Py.normpath p.

(** A path can name a regular file only if its last component is a file
    name: not empty (trailing separator), not "." and not "..". *)
Definition names_file (p : string) : bool :=
  negb (bool_decide (Py.basename p ∈ [""; "."; ".."])).

(** The directories a path leads through: its proper prefixes that end in
    a name, normalised.  ("a/b/c.ipynb" leads through "a" and "a/b",
    "x/../c.ipynb" through "x", "tmp/" through "tmp".) *)
Definition is_name (c : string) : bool :=
  negb (bool_decide (c ∈ [""; "."; ".."])).

Fixpoint ancestors_go (pre : string) (comps : list string) : list string :=
  match comps with
  | [] => []
  | c :: rest =>
      match rest with
      | [] => []
      | _ :: _ =>
          (if is_name c then [Py.normpath (pre +:+ c)] else [])
          ++ ancestors_go (pre +:+ c +:+ "/") rest
      end
  end.

Definition ancestors (p : string) : list string :=
  ancestors_go "" (Py.split_sep p).

(** Path resolution stops at the first directory on the way that is not
    there, with [ENOTDIR] if a regular file stands in its place and
    [ENOENT] otherwise. *)
Fixpoint blocked (σ : state) (ds : list string) : option string :=
  match ds with
  | [] => None
  | d :: ds' =>
      if bool_decide (d ∈ dirs σ) then blocked σ ds'
      else Some (if bool_decide (is_Some (files σ !! d))
                 then "NotADirectoryError" else "FileNotFoundError")
  end.

Definition reachable (p : string) (σ : state) : bool :=
  bool_decide (blocked σ (ancestors p) = None).

(** [os.path.isdir] *)
Definition isdir (p : string) : M bool :=
  σ ← get; mret (reachable p σ && bool_decide (key p ∈ dirs σ)).

(** [os.path.exists] *)
Definition path_exists (p : string) : M bool :=
  σ ← get;
  mret (reachable p σ
        && bool_decide (key p ∈ dirs σ ∨ is_Some (files σ !! key p))).

(** [os.makedirs(p)], with [exist_ok] left false: the missing directories
    on the way are made as well; a regular file on the way, or any entry at
    [p] itself, is an error. *)
Definition makedirs (p : string) : M unit :=
  σ ← get;
  if bool_decide (Exists (λ d, (d ∉ dirs σ) ∧ is_Some (files σ !! d)) (ancestors p))
  then raise (Exception "NotADirectoryError" p)
  else if bool_decide (key p ∈ dirs σ ∨ is_Some (files σ !! key p))
  then raise (Exception "FileExistsError" p)
  else modify (set_dirs (λ d, d ∪ ({[key p]} ∪ list_to_set (ancestors p)))).

(** [k] is the entry [d] or lies below it. *)
Definition below (d k : string) : bool :=
  bool_decide (k = d) || Py.startswith k (d +:+ "/").

(** [shutil.rmtree(p)], with [ignore_errors] left false: a directory goes
    with everything below it; anything else at [p] is an error. *)
Definition rmtree (p : string) : M unit :=
  σ ← get;
  match blocked σ (ancestors p) with
  | Some err => raise (Exception err p)
  | None =>
      if bool_decide (key p ∈ dirs σ) then
        modify (λ σ,
          set_dirs (filter (λ k, ¬ below (key p) k))
            (set_files (filter (λ kv, ¬ below (key p) kv.1)) σ))
      else if bool_decide (is_Some (files σ !! key p))
      then raise (Exception "NotADirectoryError" p)
      else raise (Exception "FileNotFoundError" p)
  end.

(** Reading a whole file: [open(p).read()]. *)
Definition read_text (p : string) : M string :=
  σ ← get;
  match blocked σ (ancestors p) with
  | Some err => raise (Exception err p)
  | None =>
      if negb (names_file p) || bool_decide (key p ∈ dirs σ)
      then raise (Exception "IsADirectoryError" p)
      else match files σ !! key p with
           | Some text => mret text
           | None => raise (Exception "FileNotFoundError" p)
           end
  end.

(** [open(p, "w")]: the file is created, or truncated if it exists. *)
Definition open_w (p : string) : M unit :=
  modify (set_files (<[key p := ""]>)).

(** [open(p, "a")]: the file is created if missing and kept otherwise. *)
Definition open_a (p : string) : M unit :=
  modify (set_files (λ fs, <[key p := default "" (fs !! key p)]> fs)).

(** [f.write(s)] on the file opened at [p]: [s] goes at the end. *)
Definition write (p : string) (s : string) : M unit :=
  modify (set_files (λ fs, <[key p := default "" (fs !! key p) +:+ s]> fs)).

(** A line of a log file: ["%s\n" % p]. *)
Definition line (p : string) : string := p +:+ String Py.LF "".

(** The text of a file that holds the paths [ps], one per line. *)
Definition lines (ps : list string) : string :=
  foldr (λ p text, line p +:+ text) "" ps.

End Os.

(** ** scripts/parse_commit.py *)

Module ParseCommit.
Import Os.

(** Lines 9 and 11: the stripped lines that end in ".ipynb". *)
Definition changed_notebooks (content : list string) : list string :=
  let content := Py.strip <$> content in
  filter (λ line, Py.endswith line ".ipynb") content.

(** The whole script; it returns [changed_notebooks]. *)
Definition script : M (list string) :=
  text ← read_text "changed_files.txt";
  let content := Py.readlines text in
  let changed_notebooks := changed_notebooks content in
  open_w "changed_notebooks.txt";;
  (if bool_decide (0 < length changed_notebooks)
   then for_ changed_notebooks (λ fn, write "changed_notebooks.txt" (line fn))
   else mret tt);;
  mret changed_notebooks.


(** A working directory without the list of changed files. *)
Definition empty_directory : state := State ∅ ∅ 0 None 0 [].

(** A working directory whose last commit changed two notebooks. *)
Definition sample_commit : state :=
  State {[ "changed_files.txt" :=
             lines ["readme.md"; "lesson1.ipynb"; "fig.png"; "lesson2.ipynb"] ]}
    ∅ 0 None 0 [].


End ParseCommit.

(** ** scripts/run_notebooks.py *)

Module RunNotebooks.
Import Os.

(** The kernel metadata of a notebook document, as [nbformat] exposes it.
    A missing attribute is [None]; reading it raises [AttributeError]. *)
Record kernelspec := Kernelspec {
  name : option string;
  display_name : option string;
  language : option string
}.

Record notebook := Notebook {
  metadata_kernelspec : option kernelspec;         (* nb.metadata.kernelspec *)
  metadata_language_info_version : option string;  (* nb.metadata.language_info.version *)
  cells : string                                   (* the rest of the document *)
}.

(** What one run of the execution engine does: how long it takes, what it
    leaves in the output file, and the error it raises, if any. *)
Record run := Run {
  elapsed : N;
  output : string;
  error : option exn
}.

Section Rebuild.

(** The collaborators of the script: the notebook reader and writer of
    [nbformat] ([None]: the text is not a notebook), and the execution
    engine behind [papermill], which may behave differently from one
    invocation to the next.  The engine is taken to leave every file but its
    output file alone.  Time passes outside the engine too:
    [latency line σ] is the number of seconds the script spends at the
    source line [line] when it gets there in the state [σ]. *)
Variable nb_reads : string → option notebook.
Variable nb_writes : notebook → string.
Variable engine : nat → string → string → run.
Variable latency : nat → state → N.

(** Attribute access on a document node. *)
Definition getattr {A} (attr : string) (o : option A) : M A :=
  match o with
  | Some a => mret a
  | None => raise (Exception "AttributeError" attr)
  end.

(** [nf.read(path, nf.NO_CONVERT)] *)
Definition nf_read (path : string) : M notebook :=
  text ← read_text path;
  match nb_reads text with
  | Some nb => mret nb
  | None => raise (Exception "NotJSONError" path)
  end.

(** [nf.write(nb, path)] *)
Definition nf_write (nb : notebook) (path : string) : M unit :=
  modify (set_files (<[key path := nb_writes nb]>)).

(** The exception the SIGALRM handler raises (lines 159-160). *)
Definition handler : exn := Exception "Exception" "Notebook build timed out.".

(** [signal.signal(signal.SIGALRM, handler); signal.alarm(seconds)]: one
    alarm, due [seconds] from now, replacing any pending one. *)
Definition signal_alarm (seconds : N) : M unit :=
  modify (λ σ, emit (EvAlarm seconds)
    (State (files σ) (dirs σ) (clock σ) (Some (clock σ + seconds)%N) (runs σ) (trace σ))).

(** The state when the loop starts: the alarm is armed. *)
Definition armed (σ : state) : state := (signal_alarm 570 σ).2.

(** The time at which the pending alarm goes off, if that is before
    [seconds] more have passed. *)
Definition alarm_within (σ : state) (seconds : N) : option N :=
  match alarm σ with
  | Some due => if (due <? clock σ + seconds)%N then Some due else None
  | None => None
  end.

(** The script at the source line [line], outside the engine: the time of
    that line passes.  If the pending alarm falls due meanwhile, the
    handler runs there, in the main thread: its exception is raised at that
    line and the alarm is spent. *)
Definition pause (line : nat) : M unit :=
  σ ← get;
  match alarm_within σ (latency line σ) with
  | Some due =>
      modify (λ σ, State (files σ) (dirs σ) (N.max (clock σ) due) None
                     (runs σ) (trace σ));;
      raise handler
  | None =>
      modify (λ σ, State (files σ) (dirs σ) (clock σ + latency line σ)%N (alarm σ)
                     (runs σ) (trace σ))
  end.

(** [pm.execute_notebook(input_path, output_path)].  The engine would run
    for [elapsed] seconds.  If the pending alarm goes off while it is still
    running, the handler's exception is raised there and the alarm is
    spent.  Otherwise the engine writes its output and raises its own
    error, if it has one. *)
Definition execute_notebook (input_path output_path : string) : M unit :=
  text ← read_text input_path;
  σ ← get;
  let r := engine (runs σ) input_path text in
  match alarm_within σ (elapsed r) with
  | Some due =>
      modify (λ σ, State (files σ) (dirs σ) (N.max (clock σ) due) None
                     (S (runs σ)) (trace σ ++ [EvExecute input_path]));;
      raise handler
  | None =>
      modify (λ σ, State (<[key output_path := output r]> (files σ)) (dirs σ)
                     (clock σ + elapsed r)%N (alarm σ)
                     (S (runs σ)) (trace σ ++ [EvExecute input_path]));;
      from_option raise (mret tt) (error r)
  end.

(** Lines 31-66.  The dict [paths] is a finite map. *)
Definition generate_paths (notebook_path : string) : M (gmap string string) :=
  let notebook_path := Py.normpath notebook_path in
  d ← isdir (Py.join "." "tmp");
  (if negb d then makedirs (Py.join "." "tmp") else mret tt);;
  let path_ipynb_tmp_file := Py.join "tmp" (Py.basename notebook_path) in
  let paths : gmap string string := {[ "path_save_tmp_file" := path_ipynb_tmp_file ]} in
  mret paths.

(** The staging path of a notebook (line 61). *)
Definition staged (notebook_path : string) : string :=
  Py.join "tmp" (Py.basename (Py.normpath notebook_path)).

(** [kernelspec.name = name; kernelspec.display_name = display_name]: the
    kernelspec node is shared with the document, which sees the change. *)
Definition set_kernel (nb : notebook) (kernelspec : kernelspec)
    (name display_name : string) : notebook :=
  Notebook (Some (Kernelspec (Some name) (Some display_name) (language kernelspec)))
    (metadata_language_info_version nb) (cells nb).

(** Lines 68-99. *)
Definition normalize_kernel_name (nb : notebook) (notebook : string) : M unit :=
  kernelspec ← getattr "kernelspec" (metadata_kernelspec nb);
  display_name ← getattr "display_name" (display_name kernelspec);
  nb ← (if Py.contains "[conda env:" display_name then
          language ← getattr "language" (language kernelspec);
          if bool_decide (language = "python") then
            version ← getattr "version" (metadata_language_info_version nb);
            if Py.startswith version "3."
            then mret (set_kernel nb kernelspec "python3" "Python 3")
            else mret (set_kernel nb kernelspec "python2" "Python 2")
          else mret nb
        else mret nb);
  nf_write nb notebook.

(** [paths[k]], raising [KeyError] on a missing key. *)
Definition getitem (paths : gmap string string) (k : string) : M string :=
  match paths !! k with
  | Some v => mret v
  | None => raise (Exception "KeyError" k)
  end.

(** Lines 102-133. *)
Definition rebuild_notebook (notebook_path : string) : M unit :=
  modify (emit (EvRebuild notebook_path));;
  pause 117;;
  paths ← generate_paths notebook_path;
  ntbk_tmp_path ← getitem paths "path_save_tmp_file";
  pause 121;;
  ntbk_json ← nf_read notebook_path;
  pause 125;;
  normalize_kernel_name ntbk_json ntbk_tmp_path;;
  pause 128;;
  execute_notebook ntbk_tmp_path ntbk_tmp_path.

(** The variables the build loop updates. *)
Record counters := Counters {
  problem_notebooks : list string;
  failed_count : nat;
  total_notebooks_built : nat
}.

(** The body of the [try] statement (lines 180-182), up to the update of
    the counter. *)
Definition try_body (notebook : string) : M unit :=
  rebuild_notebook notebook;;
  pause 181.

(** Lines 175-187: one notebook after the other.  An exception raised in
    the [try] body is caught and the loop goes on; one raised at line 177 or
    in the [except] block leaves the loop. *)
Fixpoint build_loop (notebooks : list string) (v : counters) : M counters :=
  match notebooks with
  | [] => mret v
  | notebook :: rest =>
      pause 177;;
      v ← try_except
            (try_body notebook;;
             mret (Counters (problem_notebooks v) (failed_count v)
                     (S (total_notebooks_built v))))
            (λ ex,
               pause 184;;
               mret (Counters (problem_notebooks v ++ [notebook]) (S (failed_count v))
                       (total_notebooks_built v)));
      build_loop rest v
  end.

(** What a completed run leaves in its variables. *)
Record report := Report {
  notebooks_to_rebuild : list string;
  failed : list string;         (* problem_notebooks *)
  succeeded : list string;      (* successful_notebooks *)
  count_failed : nat;           (* failed_count *)
  count_built : nat             (* total_notebooks_built *)
}.

(** Lines 189-219: the scratch directory goes, if anything is there, and
    the two logs are written. *)
Definition finish (notebooks_to_rebuild : list string) (v : counters) : M report :=
  pause 189;;
  let tmp_path := Py.join "." "tmp" in
  present ← path_exists tmp_path;
  (if (present : bool) then rmtree tmp_path else mret tt);;
  pause 208;;
  open_a "nb_errors.txt";;
  for_ (problem_notebooks v) (λ nb, pause 211;; write "nb_errors.txt" (line nb));;
  pause 214;;
  let successful_notebooks :=
    filter (λ x, x ∉ problem_notebooks v) notebooks_to_rebuild in
  open_w "ipynb_files_built.txt";;
  for_ successful_notebooks (λ nb, pause 219;; write "ipynb_files_built.txt" (line nb));;
  mret (Report notebooks_to_rebuild (problem_notebooks v) successful_notebooks
          (failed_count v) (total_notebooks_built v)).

(** Lines 155-219, for the sorted argument list. *)
Definition batch (notebooks_to_rebuild : list string) : M report :=
  signal_alarm 570;;
  v ← build_loop notebooks_to_rebuild (Counters [] 0 0);
  finish notebooks_to_rebuild v.

(** How the process ends. *)
Inductive exit :=
| Completed (r : report)      (* ran to the last line, exit status 0 *)
| SystemExit (msg : string)   (* sys.exit(msg) *)
| Uncaught (e : exn).         (* an exception reached the top level *)

(** The script, given [sys.argv] (lines 136-219). *)
Definition main (argv : list string) (σ : state) : exit * state :=
  if bool_decide (1 < length argv) then
    let notebooks_to_rebuild := drop 1 argv in
    let notebooks_to_rebuild := Py.sorted notebooks_to_rebuild in
    match batch notebooks_to_rebuild σ with
    | (Ok r, σ') => (Completed r, σ')
    | (Raise e, σ') => (Uncaught e, σ')
    end
  else (SystemExit "No notebooks to rebuild.", σ).

(** The attempts the build loop makes on [notebooks] from the state [σ]:
    each notebook with the state in which its [try] statement is entered,
    the result of the [try] body and the state it leaves.  The list stops
    where the loop does: after the last notebook, or where an exception
    gets out of it. *)
Record attempt := Attempt {
  att_notebook : string;
  att_before : state;
  att_result : result unit;
  att_after : state
}.

(** The state in which the loop goes on after an attempt, if it does:
    where the [try] body left it, or after the [except] block. *)
Definition resume (a : attempt) : option state :=
  match att_result a with
  | Ok _ => Some (att_after a)
  | Raise _ =>
      match pause 184 (att_after a) with
      | (Ok _, σ) => Some σ
      | (Raise _, _) => None
      end
  end.

Fixpoint attempts (notebooks : list string) (σ : state) : list attempt :=
  match notebooks with
  | [] => []
  | notebook :: rest =>
      match pause 177 σ with
      | (Ok _, σ0) =>
          let r := try_body notebook σ0 in
          let a := Attempt notebook σ0 r.1 r.2 in
          a :: from_option (attempts rest) [] (resume a)
      | (Raise _, _) => []
      end
  end.

(** The calls one attempt on [p] adds to the trace. *)
Definition block (p : string) (evs : list event) : Prop :=
  evs = [EvRebuild p] ∨ evs = [EvRebuild p; EvExecute (staged p)].

Definition raised (a : attempt) : Prop :=
  match att_result a with Raise _ => True | Ok _ => False end.

Global Instance raised_dec a : Decision (raised a).
Proof. unfold raised. destruct (att_result a); apply _. Defined.

End Rebuild.

(** How far a call of [rebuild_notebook] got. *)
Inductive stage :=
| Entered                  (* nothing done yet *)
| Prepared                 (* the scratch directory is there *)
| Staged (text : string)   (* the normalized copy is written *)
| Executed (text : string). (* the engine ran on the copy *)

(** The state in which a call of [rebuild_notebook] on [p] that began in
    [σ] leaves the process at such a stage, with the clock at [c] and the
    alarm as [a]. *)
Definition left_at (p : string) (σ : state) (s : stage) (c : N) (a : option N) : state :=
  match s with
  | Entered =>
      State (files σ) (dirs σ) c a (runs σ) (trace σ ++ [EvRebuild p])
  | Prepared =>
      State (files σ) (dirs σ ∪ {["tmp"]}) c a (runs σ) (trace σ ++ [EvRebuild p])
  | Staged text =>
      State (<["tmp/" +:+ Py.basename p := text]> (files σ)) (dirs σ ∪ {["tmp"]}) c a
        (runs σ) (trace σ ++ [EvRebuild p])
  | Executed text =>
      State (<["tmp/" +:+ Py.basename p := text]> (files σ)) (dirs σ ∪ {["tmp"]}) c a
        (S (runs σ)) (trace σ ++ [EvRebuild p; EvExecute (staged p)])
  end.

(** The exception a result carries, if any. *)
Definition raises {A} (r : result A) : option exn :=
  match r with Ok _ => None | Raise e => Some e end.


(** Nothing but a directory stands at the place of the scratch directory. *)
Definition tmp_clear (σ : state) : Prop :=
  "tmp" ∈ dirs σ ∨ files σ !! "tmp" = None.

(** Entries below "tmp" are there only if "tmp" is a directory. *)
Definition scratch_wf (σ : state) : Prop :=
  ∀ k, Py.startswith k "tmp/" = true →
       is_Some (files σ !! k) ∨ k ∈ dirs σ → "tmp" ∈ dirs σ.

(** A pending alarm is not overdue. *)
Definition timely (σ : state) : Prop :=
  ∀ due, alarm σ = Some due → (clock σ ≤ due)%N.


(** The clock [c] and the alarm [a] at the end of a stretch of the script
    that began in [σ] and raised [e], if anything: time has not gone back,
    a pending alarm is still not overdue, and the alarm is as it was unless
    the handler ran, which spends it. *)
Definition timing (σ : state) (e : option exn) (c : N) (a : option N) : Prop :=
  (clock σ ≤ c)%N ∧ (timely σ → ∀ due, a = Some due → (c ≤ due)%N) ∧
  (a = alarm σ ∨ (is_Some (alarm σ) ∧ a = None ∧ e = Some handler)).

(** The rebuild calls and the alarms of a trace, in order. *)
Definition rebuilds (t : list event) : list string :=
  omap (λ ev, match ev with EvRebuild p => Some p | _ => None end) t.
Definition alarms (t : list event) : list N :=
  omap (λ ev, match ev with EvAlarm n => Some n | _ => None end) t.

(** *** A sample environment for the examples *)

(** The document behind every notebook of the sample directory. *)
Definition sample_notebook (text : string) : notebook :=
  Notebook
    (Some (Kernelspec (Some "conda-env-ea-py") (Some "Python [conda env:ea]")
             (Some "python")))
    (Some "3.7.6") text.

(** Texts that open with a brace are notebooks of a conda environment. *)
Definition sample_reads (text : string) : option notebook :=
  if Py.startswith text "{" then Some (sample_notebook text) else None.

Definition sample_writes (nb : notebook) : string :=
  default "" (metadata_kernelspec nb ≫= name) +:+ cells nb.

(** "b.ipynb" always fails, "flaky.ipynb" fails when it is the first
    notebook run, and "slow.ipynb" takes ten minutes. *)
Definition sample_engine (n : nat) (path text : string) : run :=
  Run (if bool_decide (path = "tmp/slow.ipynb") then 600 else 60)
      (text +:+ "}")
      (if bool_decide (path = "tmp/b.ipynb")
          || bool_decide (n = 0) && bool_decide (path = "tmp/flaky.ipynb")
       then Some (Exception "RuntimeError" "kernel died") else None).

(** Outside the engine the sample script loses no time. *)
Definition sample_latency (line : nat) (σ : state) : N := 0.

(** A script that stalls for ten minutes at line 177, before the second
    notebook. *)
Definition stalled (line : nat) (σ : state) : N :=
  if bool_decide (line = 177 ∧ runs σ = 1) then 600 else 0.

Definition sample_files : gmap string string :=
  list_to_map [("a.ipynb", "{a"); ("b.ipynb", "{b"); ("flaky.ipynb", "{f");
               ("slow.ipynb", "{s"); ("nb_errors.txt", line "old.ipynb");
               ("ipynb_files_built.txt", line "old.ipynb")].

Definition sample_state : state := State sample_files ∅ 0 None 0 [].

(** The sample directory with a regular file named "tmp" in it. *)
Definition blocked_state : state :=
  State (<["tmp" := "scratch notes"]> sample_files) ∅ 0 None 0 [].

Definition sample_main := main sample_reads sample_writes sample_engine sample_latency.

(** The attempts of the sample run on the paths [P]. *)
Definition sample_attempts (P : list string) : list attempt :=
  attempts sample_reads sample_writes sample_engine sample_latency
    (Py.sorted P) (armed sample_state).

(** An attempt that used up the alarm. *)
Definition timed_out (a : attempt) : Prop :=
  is_Some (alarm (att_before a)) ∧ alarm (att_after a) = None.

Global Instance timed_out_dec a : Decision (timed_out a).
Proof. unfold timed_out. apply _. Defined.

End RunNotebooks.

(** ** in-class-demos/wk08-landsat-cloud-masks.py

    The bounds of the colour bins of the quality-assessment plot. *)

Module CloudMasks.
Import Os.

(** [(a + b) / 2] on two [int]s: a [float].  The values at hand are 16-bit
    pixel codes, for which the division is exact. *)
Definition midpoint (a b : Z) : Q := inject_Z (a + b) / 2.

(** [bins[-1]], [bins[-2]], ...: indexing from the end; [IndexError] beyond
    the front of the list. *)
Definition from_end (bins : list Z) (i : nat) : result Z :=
  match reverse bins !! i with
  | Some v => Ok v
  | None => Raise (Exception "IndexError" "list index out of range")
  end.

(** Lines 211-212. *)
Definition bounds_of_bins (bins : list Z) : result (list Q) :=
  let mids := zip_with midpoint (removelast bins) (drop 1 bins) in
  match from_end bins 0, from_end bins 1 with
  | Ok last, Ok before =>
      Ok (mids ++ [inject_Z ((last - before) + last)])
  | Raise e, _ | _, Raise e => Raise e
  end.

(** Lines 209-212, for [vals = np.unique(landsat_qa).tolist()]. *)
Definition bounds (vals : list Z) : result (list Q) :=
  let bins := 0%Z :: vals in
  bounds_of_bins bins.

(** The bounds of the bins [a :: b :: rest], by recursion on the bins. *)
Fixpoint chain (a b : Z) (rest : list Z) : list Q :=
  match rest with
  | [] => [midpoint a b; inject_Z ((b - a) + b)]
  | c :: rest' => midpoint a b :: chain b c rest'
  end.

(** A 16-bit pixel code. *)
Definition pixel_code (v : Z) : Prop := (0 ≤ v < 65536)%Z.

(** The codes of a small raster, and a raster with no code but 0. *)
Definition sample_codes : list Z := [1; 66; 68; 322]%Z.

End CloudMasks.

(** ** Facts about the built-ins *)

Module PyFacts.
Import Py.

Lemma app_empty_l (s : string) : "" +:+ s = s.
Proof. reflexivity. Qed.

Lemma app_cons c (s t : string) : String c s +:+ t = String c (s +:+ t).
Proof. reflexivity. Qed.

Lemma app_empty_r (s : string) : s +:+ "" = s.
Proof. induction s as [|c s IH]; [done|]. by rewrite app_cons, IH. Qed.

Lemma app_assoc (s t u : string) : (s +:+ t) +:+ u = s +:+ t +:+ u.
Proof. induction s as [|c s IH]; [done|]. by rewrite !app_cons, IH. Qed.

Lemma endswith_has_suffix s suf : endswith s suf = true ↔ has_suffix suf s.
Proof.
  unfold has_suffix. induction s as [|c s IH]; simpl.
  - case_decide as E.
    + split; [intros _; exists ""; by subst|done].
    + split; [done|]. intros [[|? ?] Hs]; [by rewrite app_empty_l in Hs|].
      by rewrite app_cons in Hs.
  - case_decide as E.
    + split; [intros _; exists ""; by subst|done].
    + rewrite IH. split.
      * intros [stem ->]. by exists (String c stem).
      * intros [[|c' stem] Hs]; [by rewrite app_empty_l in Hs|].
        rewrite app_cons in Hs. injection Hs as -> ->. by exists stem.
Qed.

Lemma lstrip_spec s :
  ∃ pre, s = pre +:+ lstrip s ∧ all_space pre = true ∧ head_space (lstrip s) = false.
Proof.
  induction s as [|c s (pre & Hs & Hpre & Hhead)]; [by exists ""|].
  simpl. destruct (isspace c) eqn:Hc.
  - exists (String c pre). rewrite app_cons, <- Hs. simpl. by rewrite Hc, Hpre.
  - exists "". simpl. by rewrite Hc.
Qed.

Lemma rstrip_spec s :
  ∃ post, s = rstrip s +:+ post ∧ all_space post = true ∧ last_space (rstrip s) = false.
Proof.
  induction s as [|c s (post & Hs & Hpost & Hlast)]; [by exists ""|].
  simpl. destruct (rstrip s) as [|c' r] eqn:Hr.
  - rewrite app_empty_l in Hs. subst post. destruct (isspace c) eqn:Hc.
    + exists (String c s). simpl. by rewrite Hc, Hpost.
    + exists s. simpl. by rewrite Hc.
  - exists post. by rewrite app_cons, <- Hs.
Qed.

Lemma rstrip_head s : head_space s = false → head_space (rstrip s) = false.
Proof.
  destruct s as [|c s]; [done|]. simpl. intros Hc.
  destruct (rstrip s); [by rewrite Hc|done].
Qed.

(** [strip] takes whitespace, and nothing else, off both ends. *)
Lemma strip_spec s :
  ∃ pre post,
    s = pre +:+ strip s +:+ post ∧
    all_space pre = true ∧ all_space post = true ∧
    head_space (strip s) = false ∧ last_space (strip s) = false.
Proof.
  destruct (lstrip_spec s) as (pre & Hs & Hpre & Hhead).
  destruct (rstrip_spec (lstrip s)) as (post & Hl & Hpost & Hlast).
  exists pre, post. unfold strip. rewrite <- Hl.
  repeat split; [done..|by apply rstrip_head|done].
Qed.

Lemma sorted_Sorted l : Sorted String.le (sorted l).
Proof. apply Sorted_merge_sort; apply _. Qed.

Lemma sorted_Permutation l : sorted l ≡ₚ l.
Proof. apply merge_sort_Permutation. Qed.

(** Any sorted rearrangement of [l] is [sorted l]. *)
Lemma sorted_unique l l' : l' ≡ₚ l → Sorted String.le l' → l' = sorted l.
Proof.
  intros Hp Hs. apply (Sorted_unique String.le); [done|apply sorted_Sorted|].
  by rewrite Hp, sorted_Permutation.
Qed.

Lemma elem_of_sorted x l : x ∈ sorted l ↔ x ∈ l.
Proof. by rewrite sorted_Permutation. Qed.

Lemma split_sep_cons_sep s : split_sep (String "/" s) = "" :: split_sep s.
Proof. reflexivity. Qed.

Lemma split_sep_nonempty s : split_sep s ≠ [].
Proof.
  destruct s as [|c s]; simpl; [done|].
  case_decide; [done|]. by destruct (split_sep s).
Qed.

Lemma split_sep_cons c s :
  c ≠ "/"%char →
  ∃ h t, split_sep s = h :: t ∧ split_sep (String c s) = String c h :: t.
Proof.
  intros Hc. simpl. rewrite decide_False by done.
  destruct (split_sep s) as [|h t] eqn:E; [by apply split_sep_nonempty in E|].
  by exists h, t.
Qed.

Lemma split_sep_no_sep s : Forall no_sep (split_sep s).
Proof.
  induction s as [|c s IH]; [by repeat constructor|].
  destruct (decide (c = "/"%char)) as [->|Hc].
  - rewrite split_sep_cons_sep. constructor; [done|apply IH].
  - destruct (split_sep_cons c s Hc) as (h & t & E & ->).
    rewrite E in IH. apply Forall_cons in IH as [Hh Ht].
    constructor; [|done]. unfold no_sep in *. simpl.
    rewrite decide_False by done. by rewrite Hh.
Qed.

Lemma split_sep_app s t :
  split_sep (s +:+ "/" +:+ t) = split_sep s ++ split_sep t.
Proof.
  induction s as [|c s IH]; [done|]. rewrite app_cons.
  destruct (decide (c = "/"%char)) as [->|Hc].
  - rewrite !split_sep_cons_sep, IH. done.
  - destruct (split_sep_cons c s Hc) as (h & u & E & ->).
    destruct (split_sep_cons c (s +:+ "/" +:+ t) Hc) as (h' & u' & E' & ->).
    rewrite IH, E in E'. simpl in E'. by injection E' as <- <-.
Qed.

Lemma basename_no_sep b : no_sep b → basename b = b.
Proof. unfold basename, no_sep. by intros ->. Qed.

Lemma basename_app s b : no_sep b → basename (s +:+ "/" +:+ b) = b.
Proof.
  intros Hb. unfold basename. rewrite split_sep_app, Hb.
  by rewrite last_snoc.
Qed.

Lemma basename_is_no_sep p : no_sep (basename p).
Proof.
  unfold basename. pose proof (split_sep_no_sep p) as H.
  destruct (last (split_sep p)) as [b|] eqn:E; [|done].
  apply last_Some_elem_of in E. by eapply Forall_forall in H.
Qed.

Lemma concat_snoc (cs : list string) b :
  cs ≠ [] → String.concat "/" (cs ++ [b]) = String.concat "/" cs +:+ "/" +:+ b.
Proof.
  induction cs as [|c cs IH]; [done|]. intros _.
  destruct cs as [|c' cs]; [done|].
  change (String.concat "/" ((c :: c' :: cs) ++ [b]))
    with (c +:+ "/" +:+ String.concat "/" ((c' :: cs) ++ [b])).
  rewrite IH by done.
  change (String.concat "/" (c :: c' :: cs))
    with (c +:+ "/" +:+ String.concat "/" (c' :: cs)).
  by rewrite !app_assoc.
Qed.

Lemma normpath_step_proper n cs b : proper b → normpath_step n cs b = cs ++ [b].
Proof.
  unfold normpath_step. intros (H1 & H2 & H3).
  rewrite decide_False by (by intros [?|?]).
  rewrite decide_True; [done|]. by left.
Qed.

Lemma initial_slashes_cases p :
  String.concat "" (replicate (initial_slashes p) "/") ∈ [""; "/"; "//"].
Proof.
  unfold initial_slashes.
  destruct (startswith p "/"); [|set_solver].
  destruct (startswith p "//" && negb (startswith p "///")); set_solver.
Qed.

Lemma basename_slashes_concat sl cs b :
  sl ∈ [""; "/"; "//"] → no_sep b →
  basename (sl +:+ String.concat "/" (cs ++ [b])) = b.
Proof.
  intros Hsl Hb. destruct (decide (cs = [])) as [->|Hcs].
  - simpl. apply list_elem_of_In in Hsl. simpl in Hsl.
    destruct Hsl as [<-|[<-|[<-|[]]]].
    + by apply basename_no_sep.
    + by apply (basename_app "").
    + by apply (basename_app "/").
  - rewrite concat_snoc by done. rewrite <- app_assoc. by apply basename_app.
Qed.

(** Normalising a path that names a file keeps the file name. *)
Lemma basename_normpath p :
  proper (basename p) → basename (normpath p) = basename p.
Proof.
  intros Hb. pose proof (basename_is_no_sep p) as Hns.
  unfold normpath. case_decide as Hp.
  { subst p. by destruct Hb as [[] _]. }
  assert (∃ init, split_sep p = init ++ [basename p]) as [init Hsplit].
  { unfold basename in *. destruct (last (split_sep p)) as [b|] eqn:E.
    - apply last_Some in E as [init ->]. by exists init.
    - apply last_None in E. by apply split_sep_nonempty in E. }
  rewrite Hsplit, foldl_app. simpl. rewrite normpath_step_proper by done.
  set (cs := foldl _ _ init).
  pose proof (basename_slashes_concat _ cs _ (initial_slashes_cases p) Hns) as Hbase.
  case_decide as Hempty; [|done].
  rewrite Hempty in Hbase. destruct Hb as [[] _]. by rewrite <- Hbase.
Qed.

Lemma no_sep_not_startswith_sep b : no_sep b → startswith b "/" = false.
Proof.
  unfold no_sep. destruct b as [|c b]; [done|]. intros H. simpl.
  case_decide as E; [|done]. subst c. by rewrite split_sep_cons_sep in H.
Qed.

(** The staged copy of a file name lies directly in the scratch directory. *)
Lemma join_tmp b : no_sep b → join "tmp" b = "tmp/" +:+ b.
Proof.
  intros Hb. unfold join. by rewrite no_sep_not_startswith_sep.
Qed.

Lemma normpath_tmp b : no_sep b → proper b → normpath ("tmp/" +:+ b) = "tmp/" +:+ b.
Proof.
  intros Hns Hb. unfold normpath. rewrite decide_False by done.
  change (initial_slashes ("tmp/" +:+ b)) with 0.
  change (split_sep ("tmp/" +:+ b)) with ("tmp" :: split_sep b).
  rewrite Hns. simpl. by rewrite normpath_step_proper.
Qed.

End PyFacts.

(** ** Facts about the operating-system calls *)

Module OsFacts.
Import Py PyFacts Os.

Lemma names_file_proper p : names_file p = true ↔ proper (basename p).
Proof.
  unfold names_file, proper. rewrite negb_true_iff, bool_decide_eq_false.
  rewrite !not_elem_of_cons. pose proof (not_elem_of_nil (basename p)). tauto.
Qed.

Lemma bind_eq {A B} (m : M A) (k : A → M B) σ :
  (m ≫= k) σ =
  match m σ with
  | (Ok a, σ') => k a σ'
  | (Raise e, σ') => (Raise e, σ')
  end.
Proof. reflexivity. Qed.




Lemma key_tmp : key (join "." "tmp") = "tmp".
Proof. reflexivity. Qed.

Lemma bind_Ok {A B} (m : M A) (k : A → M B) σ b σ' :
  (m ≫= k) σ = (Ok b, σ') →
  ∃ a σ1, m σ = (Ok a, σ1) ∧ k a σ1 = (Ok b, σ').
Proof.
  rewrite bind_eq. destruct (m σ) as [[a|e] σ1]; [eauto|done].
Qed.

Lemma ancestors_tmp : ancestors (join "." "tmp") = [].
Proof. reflexivity. Qed.

Lemma isdir_tmp σ :
  isdir (join "." "tmp") σ = (Ok (bool_decide ("tmp" ∈ dirs σ)), σ).
Proof. reflexivity. Qed.

Lemma path_exists_tmp σ :
  path_exists (join "." "tmp") σ =
  (Ok (bool_decide ("tmp" ∈ dirs σ ∨ is_Some (files σ !! "tmp"))), σ).
Proof. reflexivity. Qed.

Lemma makedirs_tmp σ :
  makedirs (join "." "tmp") σ =
  if bool_decide ("tmp" ∈ dirs σ ∨ is_Some (files σ !! "tmp"))
  then (Raise (Exception "FileExistsError" "./tmp"), σ)
  else (Ok tt, set_dirs (λ d, d ∪ {["tmp"]}) σ).
Proof.
  unfold makedirs. rewrite bind_eq. cbn [get]. rewrite ancestors_tmp, key_tmp.
  rewrite bool_decide_eq_false_2 by (by intros ?%Exists_nil).
  case_bool_decide; [done|]. unfold modify. by f_equal.
Qed.

Lemma set_dirs_tmp σ : "tmp" ∈ dirs σ → set_dirs (λ d, d ∪ {["tmp"]}) σ = σ.
Proof.
  intros Htmp. destruct σ; unfold set_dirs; simpl in *. f_equal.
  rewrite (comm_L (∪)). by apply subseteq_union_1_L, singleton_subseteq_l.
Qed.

Lemma read_text_inv p σ r σ' :
  read_text p σ = (r, σ') →
  σ' = σ ∧
  ∀ text, r = Ok text →
    proper (basename p) ∧ reachable p σ = true ∧ (key p ∉ dirs σ) ∧
    files σ !! key p = Some text.
Proof.
  unfold read_text, reachable. rewrite bind_eq. cbn [get].
  destruct (blocked σ (ancestors p)) as [err|].
  { intros [= <- <-]. done. }
  destruct (negb (names_file p)) eqn:Hn; simpl.
  { intros [= <- <-]. done. }
  apply negb_false_iff, names_file_proper in Hn.
  case_bool_decide as Hd; simpl.
  { intros [= <- <-]. done. }
  destruct (files σ !! key p) as [text|] eqn:Hf.
  - intros [= <- <-]. split; [done|]. by intros ? [= <-].
  - intros [= <- <-]. done.
Qed.

Lemma keeps_bind {A B} (I : state → Prop) (m : M A) (k : A → M B) :
  keeps I m → (∀ a, keeps I (k a)) → keeps I (m ≫= k).
Proof.
  intros Hm Hk σ r σ'. rewrite bind_eq.
  destruct (m σ) as [[a|e] σ1] eqn:H1.
  - intros H2 Hσ. eapply Hk; [done|]. by eapply Hm.
  - intros [= <- <-] Hσ. by eapply Hm.
Qed.

Lemma keeps_ret {A} (I : state → Prop) (a : A) : keeps I (mret a).
Proof. by intros σ r σ' [= <- <-]. Qed.

Lemma keeps_raise {A} (I : state → Prop) e : keeps I (raise e : M A).
Proof. by intros σ r σ' [= <- <-]. Qed.

Lemma keeps_get (I : state → Prop) : keeps I get.
Proof. by intros σ r σ' [= <- <-]. Qed.

Lemma keeps_modify (I : state → Prop) f : (∀ σ, I σ → I (f σ)) → keeps I (modify f).
Proof. intros Hf σ r σ' [= <- <-]. apply Hf. Qed.

Lemma keeps_for {A} (I : state → Prop) (xs : list A) body :
  (∀ x, keeps I (body x)) → keeps I (for_ xs body).
Proof.
  intros Hb. induction xs as [|x xs IH]; [apply keeps_ret|].
  simpl. apply keeps_bind; [apply Hb|done].
Qed.

(** The calls on the file system leave the trace alone. *)
Lemma rmtree_trace t p : keeps (λ τ, trace τ = t) (rmtree p).
Proof.
  unfold rmtree. apply keeps_bind; [apply keeps_get|]. intros σ.
  destruct (blocked σ (ancestors p)); [apply keeps_raise|].
  repeat case_bool_decide; try apply keeps_raise. by apply keeps_modify.
Qed.

Lemma rmtree_tmp σ :
  "tmp" ∈ dirs σ →
  rmtree (join "." "tmp") σ =
  (Ok tt, set_dirs (filter (λ k, ¬ below "tmp" k))
            (set_files (filter (λ kv, ¬ below "tmp" kv.1)) σ)).
Proof.
  intros Hd. unfold rmtree. rewrite bind_eq. cbn [get].
  rewrite ancestors_tmp, key_tmp. cbn [blocked].
  by rewrite bool_decide_eq_true_2.
Qed.

Lemma rmtree_tmp_file σ :
  "tmp" ∉ dirs σ → is_Some (files σ !! "tmp") →
  rmtree (join "." "tmp") σ = (Raise (Exception "NotADirectoryError" "./tmp"), σ).
Proof.
  intros Hd Hf. unfold rmtree. rewrite bind_eq. cbn [get].
  rewrite ancestors_tmp, key_tmp. cbn [blocked].
  by rewrite bool_decide_eq_false_2, bool_decide_eq_true_2.
Qed.

End OsFacts.

(** ** The change detector *)

Module ParseCommitSpec.
Import Py Os ParseCommit PyFacts OsFacts.

Lemma changed_notebooks_sublist L :
  changed_notebooks L `sublist_of` (Py.strip <$> L).
Proof. apply sublist_filter. Qed.

Lemma changed_notebooks_suffix L :
  Forall (has_suffix ".ipynb") (changed_notebooks L).
Proof.
  apply Forall_forall. intros p Hp. unfold changed_notebooks in Hp.
  apply list_elem_of_filter in Hp as [Hp _].
  apply endswith_has_suffix. by apply Is_true_true.
Qed.

Lemma sublist_filter_greatest {A} (P : A → Prop) `{!∀ x, Decision (P x)} R S :
  R `sublist_of` S → Forall P R → R `sublist_of` filter P S.
Proof.
  induction 1 as [|x R S _ IH|x R S _ IH]; intros HR.
  - constructor.
  - apply Forall_cons in HR as [Hx HR].
    rewrite filter_cons_True by done. constructor. by apply IH.
  - rewrite filter_cons. case_decide; [constructor|]; by apply IH.
Qed.

(** C2.  For every list [L] of raw lines, the change detector returns the
    greatest sublist of the stripped lines whose entries all end in
    ".ipynb": a sublist of them (nothing added, nothing reordered), made of
    notebook paths only, and containing every other such sublist (nothing
    with the suffix dropped, no duplicate merged). *)
Theorem changed_notebooks_filtered_sublist (L : list string) :
  changed_notebooks L `sublist_of` (Py.strip <$> L) ∧
  Forall (has_suffix ".ipynb") (changed_notebooks L) ∧
  ∀ R, R `sublist_of` (Py.strip <$> L) → Forall (has_suffix ".ipynb") R →
       R `sublist_of` changed_notebooks L.
Proof.
  split; [apply changed_notebooks_sublist|].
  split; [apply changed_notebooks_suffix|].
  intros R HR Hsuf. unfold changed_notebooks.
  apply sublist_filter_greatest; [done|].
  eapply Forall_impl; [done|]. intros p Hp. simpl.
  apply Is_true_true. by apply endswith_has_suffix.
Qed.




(** The scenario of the specification. *)
Example scenario_changed_files :
  changed_notebooks (line <$> ["readme.md"; "lesson1.ipynb"; "fig.png"; "lesson2.ipynb"])
  = ["lesson1.ipynb"; "lesson2.ipynb"].
Proof. reflexivity. Qed.

(** Duplicates are kept, and so is the order of the input. *)
Example scenario_duplicates_kept :
  changed_notebooks [" b.ipynb "; "a.ipynb"; line "b.ipynb"; "c.ipynb.bak"]
  = ["b.ipynb"; "a.ipynb"; "b.ipynb"].
Proof. reflexivity. Qed.

End ParseCommitSpec.

(** ** The batch rebuilder *)

Module RunNotebooksSpec.
Import Py PyFacts Os OsFacts RunNotebooks.


(** *** The clock and the alarm *)

Lemma timing_step σ σ1 e c a :
  timing σ None (clock σ1) (alarm σ1) → timing σ1 e c a → timing σ e c a.
Proof.
  intros (Hc1 & Ht1 & Ha1) (Hc2 & Ht2 & Ha2).
  assert (alarm σ1 = alarm σ) as Ha by (by destruct Ha1 as [?|(_ & _ & ?)]).
  split; [lia|]. split.
  - intros Ht. apply Ht2. intros due. by apply Ht1.
  - rewrite <- Ha. done.
Qed.

Lemma timing_raise σ e c a : timing σ None c a → timing σ e c a.
Proof. intros (? & ? & [?|(? & ? & [=])]). repeat split; by try left. Qed.

Lemma timing_timely σ e σ' :
  timing σ e (clock σ') (alarm σ') → timely σ → timely σ'.
Proof. intros (_ & Ht & _) H due. by apply Ht. Qed.

Lemma alarm_within_Some σ s due :
  alarm_within σ s = Some due → alarm σ = Some due.
Proof.
  unfold alarm_within. destruct (alarm σ) as [d|]; [|done].
  by destruct (d <? clock σ + s)%N; intros [= <-].
Qed.

Lemma alarm_within_None σ s due :
  alarm_within σ s = None → alarm σ = Some due → (clock σ + s ≤ due)%N.
Proof.
  unfold alarm_within. intros H Ha. rewrite Ha in H.
  destruct (due <? clock σ + s)%N eqn:Hlt; [done|]. by apply N.ltb_ge in Hlt.
Qed.




(** *** The scratch directory *)

Lemma generate_paths_inv p σ r σ' :
  generate_paths p σ = (r, σ') →
  (r = Ok {[ "path_save_tmp_file" := staged p ]} ∧
   σ' = set_dirs (λ d, d ∪ {["tmp"]}) σ ∧ tmp_clear σ) ∨
  (r = Raise (Exception "FileExistsError" "./tmp") ∧ σ' = σ ∧ ¬ tmp_clear σ).
Proof.
  unfold generate_paths. rewrite bind_eq, isdir_tmp.
  case_bool_decide as Hd; cbn [negb].
  - intros [= <- <-]. left. split; [done|]. split; [by rewrite set_dirs_tmp|by left].
  - rewrite bind_eq, makedirs_tmp. case_bool_decide as He.
    + intros [= <- <-]. right. split; [done|]. split; [done|].
      intros [?|Hn]; [done|]. destruct He as [?|[? He]]; [done|]. by rewrite Hn in He.
    + intros [= <- <-]. left. split; [done|]. split; [done|]. right.
      apply eq_None_not_Some. tauto.
Qed.


(** With a regular file in the place of the scratch directory no path can
    be staged. *)
Lemma generate_paths_blocked path σ :
  ¬ tmp_clear σ →
  generate_paths path σ = (Raise (Exception "FileExistsError" "./tmp"), σ).
Proof.
  intros Hc. destruct (generate_paths path σ) as [r σ'] eqn:Hg.
  by apply generate_paths_inv in Hg as [(_ & _ & ?)|(-> & -> & _)].
Qed.

Lemma staged_proper p :
  proper (basename p) →
  staged p = "tmp/" +:+ basename p ∧ key (staged p) = "tmp/" +:+ basename p.
Proof.
  intros Hp. pose proof (basename_is_no_sep p) as Hns.
  unfold staged, key. rewrite basename_normpath, join_tmp by done.
  by rewrite normpath_tmp.
Qed.

(** Lines 194-196: what is left when they go through. *)
Lemma cleanup_Ok σ σ' :
  (present ← path_exists (join "." "tmp");
   if (present : bool) then rmtree (join "." "tmp") else mret tt) σ = (Ok tt, σ') →
  tmp_clear σ ∧
  clock σ' = clock σ ∧ alarm σ' = alarm σ ∧ runs σ' = runs σ ∧ trace σ' = trace σ ∧
  ("tmp" ∉ dirs σ') ∧ files σ' !! "tmp" = None ∧
  (∀ k, below "tmp" k = false →
     files σ' !! k = files σ !! k ∧ (k ∈ dirs σ' ↔ k ∈ dirs σ)) ∧
  (scratch_wf σ → ∀ k, below "tmp" k = true → files σ' !! k = None ∧ k ∉ dirs σ').
Proof.
  rewrite bind_eq, path_exists_tmp.
  destruct (decide ("tmp" ∈ dirs σ)) as [Hd|Hd].
  - rewrite bool_decide_eq_true_2 by by left. rewrite rmtree_tmp by done.
    intros [= <-]. cbn -[below]. split; [by left|]. do 4 (split; [done|]).
    assert (∀ k, below "tmp" k = true →
              filter (λ kv, ¬ below "tmp" kv.1) (files σ) !! k = None
              ∧ k ∉ filter (λ k, ¬ below "tmp" k) (dirs σ)) as Hgone.
    { intros k Hk. split.
      - apply map_lookup_filter_None. right. intros v _. cbn -[below].
        rewrite Hk. simpl. tauto.
      - intros [Hb _]%elem_of_filter. rewrite Hk in Hb. simpl in Hb. tauto. }
    split; [by apply Hgone|]. split; [by apply Hgone|]. split; [|by intros _].
    intros k Hk. split.
    + destruct (files σ !! k) as [v|] eqn:Hv.
      * apply map_lookup_filter_Some. split; [done|]. cbn -[below].
        rewrite Hk. simpl. tauto.
      * apply map_lookup_filter_None. by left.
    + rewrite elem_of_filter, Hk. simpl. tauto.
  - destruct (files σ !! "tmp") as [t|] eqn:Hf.
    + rewrite bool_decide_eq_true_2 by (right; eauto).
      rewrite rmtree_tmp_file by eauto. done.
    + rewrite bool_decide_eq_false_2 by (intros [?|[? ?]]; done).
      intros [= <-]. split; [by right|]. do 4 (split; [done|]).
      split; [done|]. split; [done|]. split; [done|].
      intros Hwf k Hk. unfold below in Hk. apply orb_true_iff in Hk as [Hk|Hk].
      * apply bool_decide_eq_true in Hk as ->. done.
      * change ("tmp" +:+ "/") with "tmp/" in Hk. split.
        -- apply eq_None_not_Some. intros Hs. apply Hd, (Hwf k); auto.
        -- intros Hkd. apply Hd, (Hwf k); auto.
Qed.

Lemma from_option_raise_state (o : option exn) σ :
  (from_option raise (mret tt) o σ).2 = σ.
Proof. by destruct o. Qed.

Lemma left_at_time p σ s c a :
  clock (left_at p σ s c a) = c ∧ alarm (left_at p σ s c a) = a.
Proof. by destruct s. Qed.

Lemma left_at_again p σ s c a c' a' :
  State (files (left_at p σ s c a)) (dirs (left_at p σ s c a)) c' a'
    (runs (left_at p σ s c a)) (trace (left_at p σ s c a))
  = left_at p σ s c' a'.
Proof. by destruct s. Qed.

Lemma blocks_rebuilds l blocks : Forall2 block l blocks → rebuilds (concat blocks) = l.
Proof.
  induction 1 as [|p evs l blocks Hb _ IH]; [done|].
  simpl. unfold rebuilds in *. rewrite omap_app, IH.
  by destruct Hb as [-> | ->].
Qed.

Lemma blocks_alarms l blocks : Forall2 block l blocks → alarms (concat blocks) = [].
Proof.
  induction 1 as [|p evs l blocks Hb _ IH]; [done|].
  simpl. unfold alarms in *. rewrite omap_app, IH.
  by destruct Hb as [-> | ->].
Qed.

Lemma elem_of_failed (atts : list attempt) x :
  x ∈ att_notebook <$> filter raised atts ↔
  ∃ a, a ∈ atts ∧ att_notebook a = x ∧ raised a.
Proof.
  rewrite list_elem_of_fmap. split.
  - intros (a & -> & [Hr Ha]%list_elem_of_filter). eauto.
  - intros (a & Ha & <- & Hr). exists a. split; [done|]. by apply list_elem_of_filter.
Qed.

(** *** The lines at which time passes, and lines 189-219 *)

Section Pauses.
Variable latency : nat → state → N.

Abbreviation pause := (pause latency).
Abbreviation finish := (finish latency).

Lemma pause_inv n σ r σ' :
  pause n σ = (r, σ') →
  ∃ c a, σ' = State (files σ) (dirs σ) c a (runs σ) (trace σ) ∧
    timing σ (raises r) c a ∧ (r = Ok tt ∨ r = Raise handler).
Proof.
  unfold RunNotebooks.pause. rewrite bind_eq. cbn [get].
  destruct (alarm_within σ (latency n σ)) as [due|] eqn:Hw.
  - rewrite bind_eq. cbn [modify]. intros [= <- <-].
    apply alarm_within_Some in Hw. eexists _, _. split; [done|]. split; [|by right].
    split; [lia|]. split; [done|]. right. by rewrite Hw.
  - cbn [modify]. intros [= <- <-]. eexists _, _. split; [done|]. split; [|by left].
    split; [lia|]. split; [|by left].
    intros _ due Hd. by eapply alarm_within_None.
Qed.

Lemma pause_step n σ r σ' :
  pause n σ = (r, σ') →
  timing σ (raises r) (clock σ') (alarm σ') ∧
  files σ' = files σ ∧ dirs σ' = dirs σ ∧ runs σ' = runs σ ∧ trace σ' = trace σ.
Proof. intros (c & a & -> & T & _)%pause_inv. done. Qed.

Lemma pause_timely n σ r σ' : pause n σ = (r, σ') → timely σ → timely σ'.
Proof. intros (T & _)%pause_step. by eapply timing_timely. Qed.

Lemma pause_Ok n σ u σ' :
  pause n σ = (Ok u, σ') →
  files σ' = files σ ∧ dirs σ' = dirs σ ∧ alarm σ' = alarm σ ∧
  runs σ' = runs σ ∧ trace σ' = trace σ ∧ (timely σ → timely σ').
Proof.
  intros H. pose proof (pause_timely _ _ _ _ H) as Ht.
  apply pause_inv in H as (c & a & -> & (_ & _ & [->|(_ & _ & [=])]) & _). done.
Qed.

Lemma pause_alarm n σ r σ' :
  pause n σ = (r, σ') → alarm σ' = alarm σ ∨ alarm σ' = None.
Proof. intros ((_ & _ & [?|(_ & ? & _)]) & _)%pause_step; auto. Qed.


Lemma pause_wf n σ r σ' : pause n σ = (r, σ') → scratch_wf σ → scratch_wf σ'.
Proof. by intros (c & a & -> & _)%pause_inv. Qed.

Lemma pause_trace t n : keeps (λ τ, trace τ = t) (pause n).
Proof. by intros σ r σ' (c & a & -> & _)%pause_inv. Qed.



(** Writing the lines of [l] at the end of the open file [p], when no
    alarm gets in the way. *)
Lemma for_pause_write n p (l : list string) σ σ' old :
  for_ l (λ x, pause n;; write p (line x)) σ = (Ok tt, σ') →
  files σ !! key p = Some old →
  files σ' = <[key p := old +:+ lines l]> (files σ) ∧
  dirs σ' = dirs σ ∧ alarm σ' = alarm σ ∧ runs σ' = runs σ ∧ trace σ' = trace σ ∧
  (timely σ → timely σ').
Proof.
  revert σ old. induction l as [|x l IH]; intros σ old.
  { intros [= <-] Hold. unfold lines. cbn. rewrite app_empty_r.
    by rewrite insert_id. }
  simpl for_. intros (? & σ2 & Hx & Hl)%bind_Ok Hold.
  apply bind_Ok in Hx as ([] & σ1 & Hp & Hw).
  pose proof (pause_timely _ _ _ _ Hp) as Ht1.
  apply pause_inv in Hp as (c & a & -> & (_ & _ & Ha) & _).
  destruct Ha as [->|(_ & _ & [=])].
  unfold write, modify in Hw. injection Hw as Hw. subst σ2.
  apply IH with (old := old +:+ line x) in Hl as (-> & -> & -> & -> & -> & Ht2).
  2:{ cbn [files set_files]. rewrite Hold. apply lookup_insert_eq. }
  cbn [files set_files dirs alarm runs trace]. rewrite Hold.
  cbn [default from_option]. rewrite insert_insert_eq.
  change (lines (x :: l)) with (line x +:+ lines l). rewrite app_assoc.
  repeat split; try done. intros Ht. by apply Ht2, Ht1.
Qed.


(** Lines 189-219, when they go through. *)
Lemma finish_Ok l v σ r σ' :
  finish l v σ = (Ok r, σ') →
  r = Report l (problem_notebooks v) (filter (λ x, x ∉ problem_notebooks v) l)
        (failed_count v) (total_notebooks_built v) ∧
  tmp_clear σ ∧
  alarm σ' = alarm σ ∧ runs σ' = runs σ ∧ trace σ' = trace σ ∧
  (timely σ → timely σ') ∧
  files σ' !! "nb_errors.txt"
  = Some (default "" (files σ !! "nb_errors.txt") +:+ lines (problem_notebooks v)) ∧
  files σ' !! "ipynb_files_built.txt"
  = Some (lines (filter (λ x, x ∉ problem_notebooks v) l)) ∧
  ("tmp" ∉ dirs σ') ∧ files σ' !! "tmp" = None ∧
  (∀ k, below "tmp" k = false →
     (k ∈ dirs σ' ↔ k ∈ dirs σ) ∧
     (k ≠ "nb_errors.txt" → k ≠ "ipynb_files_built.txt" →
      files σ' !! k = files σ !! k)) ∧
  (scratch_wf σ → ∀ k, below "tmp" k = true → files σ' !! k = None ∧ k ∉ dirs σ').
Proof.
  unfold RunNotebooks.finish.
  intros ([] & σ1 & H1 & H)%bind_Ok.
  apply pause_Ok in H1 as (Hf1 & Hd1 & Ha1 & Hr1 & Htr1 & Ht1).
  apply bind_Ok in H as (present & σ1' & Hp & H).
  apply bind_Ok in H as ([] & σ2 & Hrm & H).
  assert ((present ← path_exists (join "." "tmp");
           if (present : bool) then rmtree (join "." "tmp") else mret tt) σ1
          = (Ok tt, σ2)) as H2 by (by rewrite bind_eq, Hp).
  clear Hp Hrm. apply cleanup_Ok in H2
    as (Hclear & Hc2 & Ha2 & Hr2 & Htr2 & Hnd2 & Hnf2 & Hout2 & Hgone2).
  assert (timely σ1 → timely σ2) as Ht2.
  { intros Ht due Hdue. rewrite Ha2 in Hdue. rewrite Hc2. by apply Ht. }
  (* lines 208-211 *)
  apply bind_Ok in H as ([] & σ3 & H3 & H).
  apply pause_Ok in H3 as (Hf3 & Hd3 & Ha3 & Hr3 & Htr3 & Ht3).
  apply bind_Ok in H as ([] & σ4 & H4 & H).
  unfold open_a, modify in H4. injection H4 as H4.
  change (key "nb_errors.txt") with "nb_errors.txt" in H4.
  apply bind_Ok in H as ([] & σ5 & H5 & H).
  apply for_pause_write with (old := default "" (files σ3 !! "nb_errors.txt")) in H5
    as (Hf5 & Hd5 & Ha5 & Hr5 & Htr5 & Ht5);
    [|subst σ4; apply lookup_insert_eq].
  change (key "nb_errors.txt") with "nb_errors.txt" in Hf5.
  (* lines 214-219 *)
  apply bind_Ok in H as ([] & σ6 & H6 & H).
  apply pause_Ok in H6 as (Hf6 & Hd6 & Ha6 & Hr6 & Htr6 & Ht6).
  apply bind_Ok in H as ([] & σ7 & H7 & H).
  unfold open_w, modify in H7. injection H7 as H7.
  change (key "ipynb_files_built.txt") with "ipynb_files_built.txt" in H7.
  apply bind_Ok in H as ([] & σ8 & H8 & H).
  apply for_pause_write with (old := "") in H8
    as (Hf8 & Hd8 & Ha8 & Hr8 & Htr8 & Ht8);
    [|subst σ7; apply lookup_insert_eq].
  change (key "ipynb_files_built.txt") with "ipynb_files_built.txt" in Hf8.
  injection H as <- <-.
  assert (files σ8 =
          <["ipynb_files_built.txt" := lines (filter (λ x, x ∉ problem_notebooks v) l)]>
            (<["nb_errors.txt" := default "" (files σ2 !! "nb_errors.txt")
                                  +:+ lines (problem_notebooks v)]> (files σ2))) as Hfiles.
  { rewrite Hf8. subst σ7. cbn [files set_files]. rewrite insert_insert_eq.
    rewrite Hf6, Hf5. subst σ4. cbn [files set_files]. rewrite insert_insert_eq.
    by rewrite Hf3. }
  assert (dirs σ8 = dirs σ2) as Hdirs.
  { rewrite Hd8. subst σ7. cbn [dirs set_files]. rewrite Hd6, Hd5. subst σ4.
    cbn [dirs set_files]. done. }
  assert (alarm σ8 = alarm σ ∧ runs σ8 = runs σ ∧ trace σ8 = trace σ) as (Ha & Hr & Htr).
  { rewrite Ha8, Hr8, Htr8. subst σ7. cbn [alarm runs trace set_files].
    rewrite Ha6, Hr6, Htr6, Ha5, Hr5, Htr5. subst σ4. cbn [alarm runs trace set_files].
    by rewrite Ha3, Hr3, Htr3, Ha2, Hr2, Htr2, Ha1, Hr1, Htr1. }
  assert (tmp_clear σ) as Hclear'.
  { destruct Hclear as [?|?]; [left|right]; congruence. }
  assert (scratch_wf σ → scratch_wf σ1) as Hwf.
  { intros Hwf k Hk. rewrite Hf1, Hd1. by apply Hwf. }
  split; [done|]. split; [done|]. do 3 (split; [done|]).
  split.
  { intros Ht. apply Ht8. subst σ7. apply Ht6, Ht5. subst σ4. by apply Ht3, Ht2, Ht1. }
  rewrite Hfiles, Hdirs.
  split.
  { rewrite lookup_insert_ne by done. rewrite lookup_insert_eq.
    destruct (Hout2 "nb_errors.txt" eq_refl) as [-> _]. by rewrite Hf1. }
  split; [apply lookup_insert_eq|].
  split; [done|]. split; [by rewrite !lookup_insert_ne|].
  split.
  - intros k Hk. destruct (Hout2 k Hk) as [Hfk Hdk]. rewrite Hdk, Hd1.
    split; [done|]. intros He Hb. rewrite !lookup_insert_ne by done.
    by rewrite Hfk, Hf1.
  - intros Hw k Hk. destruct (Hgone2 (Hwf Hw) k Hk) as [Hfk Hdk].
    split; [|done].
    rewrite !lookup_insert_ne by (intros <-; done). done.
Qed.


(** Lines 189-219 call neither the engine nor [signal.alarm], however they
    end. *)
Lemma finish_trace t l v : keeps (λ τ, trace τ = t) (finish l v).
Proof.
  unfold RunNotebooks.finish.
  apply keeps_bind; [apply pause_trace|intros _].
  apply keeps_bind; [apply keeps_bind; [apply keeps_get|intros ?; apply keeps_ret]|].
  intros present. apply keeps_bind.
  { destruct present; [apply rmtree_trace|apply keeps_ret]. }
  intros _. apply keeps_bind; [apply pause_trace|intros _].
  apply keeps_bind; [by apply keeps_modify|intros _].
  apply keeps_bind.
  { apply keeps_for. intros x. apply keeps_bind; [apply pause_trace|intros _].
    by apply keeps_modify. }
  intros _. apply keeps_bind; [apply pause_trace|intros _].
  apply keeps_bind; [by apply keeps_modify|intros _].
  apply keeps_bind; [|intros _; apply keeps_ret].
  apply keeps_for. intros x. apply keeps_bind; [apply pause_trace|intros _].
  by apply keeps_modify.
Qed.

End Pauses.

(** *** The collaborators *)

Section Reader.
Variable nb_reads : string → option notebook.

Abbreviation nf_read := (nf_read nb_reads).

Lemma nf_read_inv p σ r σ' :
  nf_read p σ = (r, σ') →
  σ' = σ ∧
  ∀ nb, r = Ok nb →
    proper (basename p) ∧
    ∃ text, read_text p σ = (Ok text, σ) ∧ nb_reads text = Some nb.
Proof.
  unfold RunNotebooks.nf_read. rewrite bind_eq.
  destruct (read_text p σ) as [[text|e] σ1] eqn:Hr.
  - apply read_text_inv in Hr as [-> Hr]. destruct (Hr text eq_refl) as (Hp & _).
    destruct (nb_reads text) as [nb|] eqn:Hnb.
    + intros [= <- <-]. split; [done|]. intros ? [= <-]. eauto.
    + intros [= <- <-]. done.
  - apply read_text_inv in Hr as [-> _]. intros [= <- <-]. done.
Qed.

Lemma nf_read_unreadable p σ τ :
  (∀ text, files σ !! key p = Some text → nb_reads text = None) →
  files τ = files σ → ∃ e, nf_read p τ = (Raise e, τ).
Proof.
  intros Hno Hf. destruct (nf_read p τ) as [[nb|e] τ'] eqn:Hr;
    apply nf_read_inv in Hr as [-> Hr]; [|by eauto].
  destruct (Hr nb eq_refl) as (_ & text & Ht & Hnb).
  apply read_text_inv in Ht as [_ Ht]. destruct (Ht text eq_refl) as (_ & _ & _ & Hl).
  rewrite Hf in Hl. apply Hno in Hl. congruence.
Qed.

End Reader.

Section Writer.
Variable nb_writes : notebook → string.

Abbreviation normalize_kernel_name := (normalize_kernel_name nb_writes).

(** The document [normalize_kernel_name] writes, when it gets that far. *)
Lemma normalize_kernel_name_inv nb path σ r σ' :
  normalize_kernel_name nb path σ = (r, σ') →
  (∃ e, r = Raise e ∧ σ' = σ) ∨
  (r = Ok tt ∧ ∃ nb', σ' = set_files (<[key path := nb_writes nb']>) σ).
Proof.
  unfold RunNotebooks.normalize_kernel_name, getattr, nf_write.
  destruct (metadata_kernelspec nb) as [ks|]; [|intros [= <- <-]; eauto].
  rewrite bind_eq; cbn -[startswith contains].
  destruct (display_name ks) as [dn|]; [|intros [= <- <-]; eauto].
  rewrite bind_eq; cbn -[startswith contains]. rewrite bind_eq.
  destruct (contains "[conda env:" dn); [|intros [= <- <-]; eauto].
  rewrite bind_eq.
  destruct (language ks) as [lang|]; [|intros [= <- <-]; eauto].
  cbn -[startswith contains]. case_bool_decide; [|intros [= <- <-]; eauto].
  rewrite bind_eq.
  destruct (metadata_language_info_version nb) as [v|]; [|intros [= <- <-]; eauto].
  cbn -[startswith]. destruct (startswith v "3."); intros [= <- <-]; eauto.
Qed.

End Writer.

Section Engine.
Variable engine : nat → string → string → run.

Abbreviation execute_notebook := (execute_notebook engine).

Lemma execute_notebook_inv i o σ r σ' :
  execute_notebook i o σ = (r, σ') →
  (∃ e, r = Raise e ∧ σ' = σ) ∨
  (∃ fs c a,
     σ' = State fs (dirs σ) c a (S (runs σ)) (trace σ ++ [EvExecute i]) ∧
     timing σ (raises r) c a ∧ (fs = files σ ∨ ∃ v, fs = <[key o := v]> (files σ))).
Proof.
  unfold RunNotebooks.execute_notebook. rewrite bind_eq.
  destruct (read_text i σ) as [[text|e] σ1] eqn:Hr;
    apply read_text_inv in Hr as [-> _]; [|intros [= <- <-]; eauto].
  rewrite bind_eq. cbn [get].
  set (rn := engine (runs σ) i text).
  destruct (alarm_within σ (elapsed rn)) as [due|] eqn:Hw.
  - rewrite bind_eq. cbn [modify]. intros [= <- <-]. right.
    apply alarm_within_Some in Hw. eexists _, _, _. split; [done|].
    split; [|by left]. split; [lia|]. split; [done|]. right. by rewrite Hw.
  - rewrite bind_eq. cbn [modify]. intros H. right.
    pose proof (f_equal snd H) as Hs. cbn [snd] in Hs.
    rewrite from_option_raise_state in Hs. subst σ'.
    eexists _, _, _. split; [done|]. split; [|right; eauto].
    split; [lia|]. split; [|by left]. intros _ due Hd. by eapply alarm_within_None.
Qed.

End Engine.

(** *** The build loop and the script *)

Section RebuildSpec.
#[local] Set Default Proof Using "Type".
Variable nb_reads : string → option notebook.
Variable nb_writes : notebook → string.
Variable engine : nat → string → string → run.
Variable latency : nat → state → N.

Abbreviation nf_read := (nf_read nb_reads).
Abbreviation normalize_kernel_name := (normalize_kernel_name nb_writes).
Abbreviation execute_notebook := (execute_notebook engine).
Abbreviation pause := (pause latency).
Abbreviation finish := (finish latency).
Abbreviation rebuild_notebook := (rebuild_notebook nb_reads nb_writes engine latency).
Abbreviation try_body := (try_body nb_reads nb_writes engine latency).
Abbreviation build_loop := (build_loop nb_reads nb_writes engine latency).
Abbreviation attempts := (attempts nb_reads nb_writes engine latency).
Abbreviation batch := (batch nb_reads nb_writes engine latency).
Abbreviation main := (main nb_reads nb_writes engine latency).

(** What a call of [rebuild_notebook] has done when it returns or raises. *)
Lemma rebuild_notebook_inv p σ r σ' :
  rebuild_notebook p σ = (r, σ') →
  ∃ s c a, σ' = left_at p σ s c a ∧ timing σ (raises r) c a ∧
    (s ≠ Entered → tmp_clear σ) ∧
    ((∃ text, s = Staged text ∨ s = Executed text) → proper (basename p)) ∧
    (raises r = None → ∃ text, s = Executed text).
Proof.
  unfold RunNotebooks.rebuild_notebook. rewrite bind_eq. cbn [modify].
  rewrite bind_eq.
  (* line 117 *)
  destruct (pause 117 _) as [r1 σ1] eqn:H1.
  apply pause_inv in H1 as (c1 & a1 & -> & T1 & [-> | ->]).
  2:{ intros [= <- <-]. exists Entered, c1, a1.
      split; [done|]. split; [exact T1|]. split; [done|].
      split; [by intros (? & [[=]|[=]])|done]. }
  rewrite bind_eq. set (σ1 := State _ _ _ _ _ _) in *.
  destruct (generate_paths p σ1) as [r2 σ2] eqn:H2.
  apply generate_paths_inv in H2 as [(-> & -> & Hclear)|(-> & -> & _)].
  2:{ intros [= <- <-]. exists Entered, c1, a1.
      split; [done|]. split; [apply timing_raise; exact T1|]. split; [done|].
      split; [by intros (? & [[=]|[=]])|done]. }
  rewrite bind_eq. unfold getitem at 1. rewrite lookup_singleton_eq.
  unfold mret at 1, M_ret at 1, ret at 1. cbv beta iota. rewrite bind_eq.
  set (σ2 := set_dirs _ σ1).
  assert (timing σ None (clock σ2) (alarm σ2)) as T2 by exact T1.
  assert (tmp_clear σ) as Hc by exact Hclear.
  (* line 121 *)
  destruct (pause 121 σ2) as [r3 σ3] eqn:H3.
  apply pause_inv in H3 as (c3 & a3 & -> & T3 & [-> | ->]).
  2:{ intros [= <- <-]. exists Prepared, c3, a3.
      split; [done|]. split; [exact (timing_step σ σ2 _ _ _ T2 T3)|]. split; [done|].
      split; [by intros (? & [[=]|[=]])|done]. }
  pose proof (timing_step σ σ2 _ _ _ T2 T3) as T3'. clear T2 T3.
  rewrite bind_eq. set (σ3 := State _ _ c3 a3 _ _) in *.
  destruct (nf_read p σ3) as [[nb|e] σ4] eqn:H4;
    apply nf_read_inv in H4 as [-> H4].
  2:{ intros [= <- <-]. exists Prepared, c3, a3.
      split; [done|]. split; [by apply timing_raise|]. split; [done|].
      split; [by intros (? & [[=]|[=]])|done]. }
  destruct (H4 nb eq_refl) as (Hp & _). clear H4.
  destruct (staged_proper p Hp) as [Hst Hkey].
  (* line 125 *)
  rewrite bind_eq.
  destruct (pause 125 σ3) as [r5 σ5] eqn:H5.
  apply pause_inv in H5 as (c5 & a5 & -> & T5 & [-> | ->]).
  2:{ intros [= <- <-]. exists Prepared, c5, a5.
      split; [done|]. split; [exact (timing_step σ σ3 _ _ _ T3' T5)|]. split; [done|].
      split; [by intros (? & [[=]|[=]])|done]. }
  pose proof (timing_step σ σ3 _ _ _ T3' T5) as T5'. clear T3' T5.
  rewrite bind_eq. set (σ5 := State _ _ c5 a5 _ _) in *.
  destruct (normalize_kernel_name nb (staged p) σ5) as [r6 σ6] eqn:H6.
  apply normalize_kernel_name_inv in H6 as [(e & -> & ->)|(-> & nb' & ->)].
  { intros [= <- <-]. exists Prepared, c5, a5.
    split; [done|]. split; [by apply timing_raise|]. split; [done|].
    split; [by intros (? & [[=]|[=]])|done]. }
  rewrite Hkey.
  (* line 128 *)
  rewrite bind_eq. set (σ6 := set_files _ σ5).
  assert (timing σ None (clock σ6) (alarm σ6)) as T6 by exact T5'.
  destruct (pause 128 σ6) as [r7 σ7] eqn:H7.
  apply pause_inv in H7 as (c7 & a7 & -> & T7 & [-> | ->]).
  2:{ intros [= <- <-]. exists (Staged (nb_writes nb')), c7, a7.
      split; [done|]. split; [exact (timing_step σ σ6 _ _ _ T6 T7)|]. done. }
  pose proof (timing_step σ σ6 _ _ _ T6 T7) as T7'. clear T6 T7.
  set (σ7 := State _ _ c7 a7 _ _) in *.
  intros H8. apply execute_notebook_inv in H8
    as [(e & -> & ->)|(fs & c & a & -> & T8 & Hfs)].
  { exists (Staged (nb_writes nb')), c7, a7.
    split; [done|]. split; [by apply timing_raise|done]. }
  pose proof (timing_step σ σ7 _ _ _ T7' T8) as T8'.
  destruct Hfs as [-> | [v ->]].
  - exists (Executed (nb_writes nb')), c, a. cbn. rewrite <- (assoc_L (++)).
    split; [done|]. split; [done|]. split; [done|]. split; [done|]. eauto.
  - exists (Executed v), c, a. cbn. rewrite <- (assoc_L (++)). rewrite Hkey.
    rewrite insert_insert_eq.
    split; [done|]. split; [done|]. split; [done|]. split; [done|]. eauto.
Qed.

(** The same holds of the whole [try] body. *)
Lemma try_body_inv p σ r σ' :
  try_body p σ = (r, σ') →
  ∃ s c a, σ' = left_at p σ s c a ∧ timing σ (raises r) c a ∧
    (s ≠ Entered → tmp_clear σ) ∧
    ((∃ text, s = Staged text ∨ s = Executed text) → proper (basename p)) ∧
    (raises r = None → ∃ text, s = Executed text).
Proof.
  unfold RunNotebooks.try_body. rewrite bind_eq.
  destruct (rebuild_notebook p σ) as [[[]|e] σ1] eqn:H1;
    apply rebuild_notebook_inv in H1 as (s & c & a & -> & T1 & Hc & Hp & Hs);
    [|intros [= <- <-]; by exists s, c, a].
  intros H2. apply pause_inv in H2 as (c' & a' & -> & T2 & Hr).
  exists s, c', a'. split; [apply left_at_again|].
  split; [|split; [done|split; [done|intros _; by apply Hs]]].
  apply (timing_step σ (left_at p σ s c a)); [|done].
  by destruct (left_at_time p σ s c a) as [-> ->].
Qed.

(** What one attempt can change. *)
Lemma try_body_step p σ r σ' :
  try_body p σ = (r, σ') →
  timing σ (raises r) (clock σ') (alarm σ') ∧
  (∃ evs, trace σ' = trace σ ++ evs ∧ block p evs) ∧
  (∀ k, startswith k "tmp/" = false → files σ' !! k = files σ !! k) ∧
  (files σ' = files σ ∨ "tmp" ∈ dirs σ') ∧
  (dirs σ' = dirs σ ∨ dirs σ' = dirs σ ∪ {["tmp"]}) ∧
  (runs σ ≤ runs σ').
Proof.
  intros (s & c & a & -> & T & Hc & Hp & Hs)%try_body_inv.
  destruct (left_at_time p σ s c a) as [-> ->]. split; [done|].
  assert ("tmp" ∈ dirs σ ∪ {["tmp"]}) as Htmp
    by (apply elem_of_union; right; by apply elem_of_singleton).
  assert (∀ b v k, startswith k "tmp/" = false →
            <["tmp/" +:+ b := v]> (files σ) !! k = files σ !! k) as Hout.
  { intros b v k Hk. apply lookup_insert_ne. intros <-.
    change (startswith ("tmp/" +:+ b) "tmp/") with true in Hk. done. }
  destruct s; cbn.
  - split; [eexists; split; [done|by left]|]. repeat split; auto.
  - split; [eexists; split; [done|by left]|]. repeat split; auto.
  - split; [eexists; split; [done|by left]|]. repeat split; auto.
  - split; [eexists; split; [done|by right]|]. repeat split; auto.
Qed.


Lemma try_body_alarm p σ r σ' :
  try_body p σ = (r, σ') →
  alarm σ' = alarm σ ∨ (is_Some (alarm σ) ∧ alarm σ' = None ∧ r = Raise handler).
Proof.
  intros ((_ & _ & [?|(? & ? & Hr)]) & _)%try_body_step; [by left|right].
  repeat split; [done..|]. destruct r; [done|]. by injection Hr as ->.
Qed.


Lemma try_body_wf p σ r σ' : try_body p σ = (r, σ') → scratch_wf σ → scratch_wf σ'.
Proof.
  intros (s & c & a & -> & _)%try_body_inv Hc.
  destruct s; cbn; try done;
    intros k _ _; apply elem_of_union; right; by apply elem_of_singleton.
Qed.

(** One turn of the build loop, spelled out. *)
Lemma build_loop_cons x l v σ :
  build_loop (x :: l) v σ =
  match pause 177 σ with
  | (Ok _, σ0) =>
      match try_body x σ0 with
      | (Ok _, σ1) =>
          build_loop l (Counters (problem_notebooks v) (failed_count v)
                          (S (total_notebooks_built v))) σ1
      | (Raise _, σ1) =>
          match pause 184 σ1 with
          | (Ok _, σ2) =>
              build_loop l (Counters (problem_notebooks v ++ [x]) (S (failed_count v))
                              (total_notebooks_built v)) σ2
          | (Raise e, σ2) => (Raise e, σ2)
          end
      end
  | (Raise e, σ0) => (Raise e, σ0)
  end.
Proof.
  simpl RunNotebooks.build_loop. rewrite bind_eq.
  destruct (pause 177 σ) as [[[]|e] σ0]; [|done].
  rewrite bind_eq. unfold try_except. rewrite bind_eq.
  destruct (try_body x σ0) as [[[]|e] σ1]; [done|].
  rewrite bind_eq. by destruct (pause 184 σ1) as [[[]|e'] σ2].
Qed.

Lemma attempts_cons x l σ :
  attempts (x :: l) σ =
  match pause 177 σ with
  | (Ok _, σ0) =>
      match try_body x σ0 with
      | (Ok u, σ1) => Attempt x σ0 (Ok u) σ1 :: attempts l σ1
      | (Raise e, σ1) =>
          Attempt x σ0 (Raise e) σ1 ::
          match pause 184 σ1 with
          | (Ok _, σ2) => attempts l σ2
          | (Raise _, _) => []
          end
      end
  | (Raise _, _) => []
  end.
Proof.
  simpl RunNotebooks.attempts. destruct (pause 177 σ) as [[[]|e] σ0]; [|done].
  unfold resume. cbn [att_result att_after].
  destruct (try_body x σ0) as [[u|e] σ1]; cbn [fst snd from_option]; [done|].
  by destruct (pause 184 σ1) as [[[]|e'] σ2].
Qed.

(** An exception raised in the [try] body does not leave the loop: the
    notebook is recorded and the loop goes on with the next one. *)
Lemma exception_is_caught x l v σ σ0 e σ1 σ2 :
  pause 177 σ = (Ok tt, σ0) → try_body x σ0 = (Raise e, σ1) →
  pause 184 σ1 = (Ok tt, σ2) →
  build_loop (x :: l) v σ =
  build_loop l (Counters (problem_notebooks v ++ [x]) (S (failed_count v))
                  (total_notebooks_built v)) σ2.
Proof. intros H0 H1 H2. by rewrite build_loop_cons, H0, H1, H2. Qed.

(** A property of the state that the pauses and the attempts keep is kept
    by the loop, however it ends. *)
Lemma build_loop_invariant (I : state → Prop) :
  (∀ n σ r σ', pause n σ = (r, σ') → I σ → I σ') →
  (∀ p σ r σ', try_body p σ = (r, σ') → I σ → I σ') →
  ∀ l v σ res σ', build_loop l v σ = (res, σ') → I σ → I σ'.
Proof.
  intros Hpause Hbody. induction l as [|x l IH]; intros v σ res σ'.
  { by intros [= <- <-]. }
  rewrite build_loop_cons.
  destruct (pause 177 σ) as [[[]|e] σ0] eqn:H0;
    [|intros [= <- <-]; by eapply Hpause].
  destruct (try_body x σ0) as [[[]|e] σ1] eqn:H1.
  - intros Hl Hσ. eapply IH; [done|]. eapply Hbody; [done|]. by eapply Hpause.
  - destruct (pause 184 σ1) as [[[]|e'] σ2] eqn:H2.
    + intros Hl Hσ. eapply IH; [done|]. eapply Hpause; [done|].
      eapply Hbody; [done|]. by eapply Hpause.
    + intros [= <- <-] Hσ. eapply Hpause; [done|].
      eapply Hbody; [done|]. by eapply Hpause.
Qed.

Lemma attempts_invariant (I : state → Prop) :
  (∀ n σ r σ', pause n σ = (r, σ') → I σ → I σ') →
  (∀ p σ r σ', try_body p σ = (r, σ') → I σ → I σ') →
  ∀ l σ, I σ → Forall (λ a, I (att_before a) ∧ I (att_after a)) (attempts l σ).
Proof.
  intros Hpause Hbody. induction l as [|x l IH]; intros σ Hσ; [constructor|].
  rewrite attempts_cons.
  destruct (pause 177 σ) as [[[]|e] σ0] eqn:H0; [|constructor].
  assert (I σ0) as Hσ0 by by eapply Hpause.
  destruct (try_body x σ0) as [[[]|e] σ1] eqn:H1;
    (assert (I σ1) as Hσ1 by by eapply Hbody).
  - constructor; [done|]. by apply IH.
  - constructor; [done|].
    destruct (pause 184 σ1) as [[[]|e'] σ2] eqn:H2; [|constructor].
    apply IH. by eapply Hpause.
Qed.

(** Every attempt is a run of the [try] body. *)
Lemma attempts_run l σ a :
  a ∈ attempts l σ →
  try_body (att_notebook a) (att_before a) = (att_result a, att_after a).
Proof.
  revert σ. induction l as [|x l IH]; intros σ; [by intros ?%elem_of_nil|].
  rewrite attempts_cons.
  destruct (pause 177 σ) as [[[]|e] σ0] eqn:H0; [|by intros ?%elem_of_nil].
  destruct (try_body x σ0) as [[[]|e] σ1] eqn:H1.
  - intros [->|Ha]%elem_of_cons; [done|by eapply IH].
  - intros [->|Ha]%elem_of_cons; [done|].
    destruct (pause 184 σ1) as [[[]|e'] σ2] eqn:H2; [by eapply IH|].
    by apply elem_of_nil in Ha.
Qed.

(** The notebooks attempted are the first ones of the list. *)
Lemma attempts_prefix l σ : (att_notebook <$> attempts l σ) `prefix_of` l.
Proof.
  revert σ. induction l as [|x l IH]; intros σ; [done|].
  rewrite attempts_cons.
  destruct (pause 177 σ) as [[[]|e] σ0] eqn:H0; [|apply prefix_nil].
  destruct (try_body x σ0) as [[[]|e] σ1] eqn:H1; rewrite fmap_cons; cbn [att_notebook].
  - apply prefix_cons, IH.
  - apply prefix_cons.
    destruct (pause 184 σ1) as [[[]|e'] σ2] eqn:H2; [apply IH|apply prefix_nil].
Qed.

Lemma attempts_alarm_pending l σ due :
  alarm σ = None ∨ alarm σ = Some due →
  Forall (λ a, alarm (att_before a) = None ∨ alarm (att_before a) = Some due)
    (attempts l σ).
Proof.
  intros Hσ.
  pose proof (attempts_invariant (λ τ, alarm τ = None ∨ alarm τ = Some due)) as H.
  eapply Forall_impl; [apply H; [| |done]|by intros a [? _]].
  - intros n τ r τ' [->| ->]%pause_alarm; auto.
  - intros p τ r τ' [->|(_ & -> & _)]%try_body_alarm; auto.
Qed.

Lemma attempts_alarm_spent l σ :
  alarm σ = None →
  Forall (λ a, alarm (att_before a) = None ∧ alarm (att_after a) = None) (attempts l σ).
Proof.
  apply (attempts_invariant (λ τ, alarm τ = None)).
  - intros n τ r τ' [->| ->]%pause_alarm; auto.
  - intros p τ r τ' [->|(_ & -> & _)]%try_body_alarm; auto.
Qed.

(** What follows an attempt are the attempts on the notebooks that are
    left, from a state in which a spent alarm is still spent. *)
Lemma attempts_tail l σ l1 a l2 :
  attempts l σ = l1 ++ a :: l2 →
  l2 = [] ∨ ∃ l' σ2, l2 = attempts l' σ2 ∧ (alarm (att_after a) = None → alarm σ2 = None).
Proof.
  revert σ l1. induction l as [|x l IH]; intros σ l1; [by destruct l1|].
  rewrite attempts_cons.
  destruct (pause 177 σ) as [[[]|e] σ0] eqn:H0; [|by destruct l1].
  destruct (try_body x σ0) as [[[]|e] σ1] eqn:H1.
  - destruct l1 as [|b l1]; intros [= <- Hl2].
    + right. exists l, σ1. done.
    + by eapply IH.
  - destruct (pause 184 σ1) as [[[]|e'] σ2] eqn:H2.
    + destruct l1 as [|b l1]; intros [= <- Hl2]; [|by eapply IH].
      right. exists l, σ2. split; [done|]. cbn. intros Hs.
      apply pause_alarm in H2 as [->| ->]; done.
    + destruct l1 as [|b l1]; intros [= <- Hl2]; [by left|by destruct l1].
Qed.

(** If the loop gets to its end, every notebook was attempted, and the
    counters tell which attempts raised. *)
Lemma build_loop_Ok l v σ v' σ' :
  build_loop l v σ = (Ok v', σ') →
  att_notebook <$> attempts l σ = l ∧
  v' = Counters
         (problem_notebooks v ++ (att_notebook <$> filter raised (attempts l σ)))
         (failed_count v + length (filter raised (attempts l σ)))
         (total_notebooks_built v + length (filter (λ a, ¬ raised a) (attempts l σ))).
Proof.
  revert v σ. induction l as [|x l IH]; intros v σ.
  { intros [= <- <-]. split; [done|]. destruct v. cbn.
    by rewrite (right_id_L [] (++)), !Nat.add_0_r. }
  rewrite build_loop_cons, attempts_cons.
  destruct (pause 177 σ) as [[[]|e] σ0] eqn:H0; [|done].
  destruct (try_body x σ0) as [[[]|e] σ1] eqn:H1.
  - intros [Hn ->]%IH. rewrite fmap_cons, Hn. split; [done|].
    rewrite (filter_cons_False raised), (filter_cons_True (λ a, ¬ raised a))
      by (unfold raised; simpl; tauto).
    cbn -[attempts filter]. f_equal. lia.
  - destruct (pause 184 σ1) as [[[]|e'] σ2] eqn:H2; [|done].
    intros [Hn ->]%IH. rewrite fmap_cons, Hn. split; [done|].
    rewrite (filter_cons_True raised), (filter_cons_False (λ a, ¬ raised a))
      by (unfold raised; simpl; tauto).
    cbn -[attempts filter]. rewrite <- (assoc_L (++)). f_equal. lia.
Qed.

(** The trace of the loop, however it ends: one block of calls for each
    of the first notebooks of the list, for all of them if the loop gets
    to its end. *)
Lemma build_loop_trace l v σ res σ' :
  build_loop l v σ = (res, σ') →
  ∃ l1 blocks, trace σ' = trace σ ++ concat blocks ∧ Forall2 block l1 blocks ∧
    l1 `prefix_of` l ∧ (raises res = None → l1 = l).
Proof.
  revert v σ. induction l as [|x l IH]; intros v σ.
  { intros [= <- <-]. exists [], []. cbn. rewrite (right_id_L [] (++)).
    split; [done|]. split; [constructor|done]. }
  rewrite build_loop_cons.
  destruct (pause 177 σ) as [[[]|e] σ0] eqn:H0;
    apply pause_step in H0 as (_ & _ & _ & _ & Htr0).
  2:{ intros [= <- <-]. exists [], []. cbn. rewrite Htr0, (right_id_L [] (++)).
      split; [done|]. split; [constructor|]. split; [apply prefix_nil|done]. }
  assert (∀ σ1 v1 evs, trace σ1 = trace σ ++ evs → block x evs →
            build_loop l v1 σ1 = (res, σ') →
            ∃ l1 blocks, trace σ' = trace σ ++ concat blocks ∧ Forall2 block l1 blocks ∧
              l1 `prefix_of` x :: l ∧ (raises res = None → l1 = x :: l)) as Hgo.
  { intros σ1 v1 evs Htr Hb (l1 & blocks & -> & Hbs & Hpre & Hall)%IH.
    exists (x :: l1), (evs :: blocks). rewrite Htr, <- (assoc_L (++)).
    split; [done|]. split; [by constructor|]. split; [by apply prefix_cons|].
    intros Hr. by rewrite Hall. }
  destruct (try_body x σ0) as [[[]|e] σ1] eqn:H1;
    apply try_body_step in H1 as (_ & (evs & Htr1 & Hb) & _);
    rewrite Htr0 in Htr1.
  - by apply Hgo with evs.
  - destruct (pause 184 σ1) as [[[]|e'] σ2] eqn:H2;
      apply pause_step in H2 as (_ & _ & _ & _ & Htr2); rewrite Htr1 in Htr2.
    + by apply Hgo with evs.
    + intros [= <- <-]. exists [x], [evs]. cbn. rewrite (right_id_L [] (++)).
      split; [done|]. split; [constructor; [done|constructor]|].
      split; [apply prefix_cons, prefix_nil|done].
Qed.

(** The loop leaves the files outside the scratch directory alone. *)
Lemma build_loop_files l v σ res σ' k :
  build_loop l v σ = (res, σ') → startswith k "tmp/" = false →
  files σ' !! k = files σ !! k.
Proof.
  intros Hl Hk.
  apply (build_loop_invariant (λ τ, files τ !! k = files σ !! k)) in Hl; [done| | |done].
  - intros n τ r τ' (_ & -> & _)%pause_step. done.
  - intros p τ r τ' (_ & _ & Hf & _)%try_body_step. by rewrite Hf.
Qed.


(** A completed run is a loop that got to its end, followed by the
    lines 189-219. *)
Lemma main_Completed script P σ r σ' :
  main (script :: P) σ = (Completed r, σ') →
  ∃ v σ1, build_loop (sorted P) (Counters [] 0 0) (armed σ) = (Ok v, σ1) ∧
          finish (sorted P) v σ1 = (Ok r, σ').
Proof.
  unfold RunNotebooks.main. case_bool_decide; [|done]. cbn [drop]. rewrite drop_0.
  destruct (batch (sorted P) σ) as [[r'|e] σ''] eqn:Hb; [|done].
  intros [= <- <-]. unfold RunNotebooks.batch in Hb.
  rewrite bind_eq in Hb. change (signal_alarm 570 σ) with (Ok tt, armed σ) in Hb.
  cbv beta iota in Hb. apply bind_Ok in Hb as (v & σ1 & Hl & Hf). eauto.
Qed.


(** The trace of a run given at least one path, however it ends: the alarm
    call, then a block of calls for each of the first notebooks of the
    sorted list; for all of them if the run completes. *)
Lemma main_trace script P σ e σ' :
  P ≠ [] → main (script :: P) σ = (e, σ') →
  ∃ l1 blocks, trace σ' = trace σ ++ EvAlarm 570 :: concat blocks ∧
    Forall2 block l1 blocks ∧ l1 `prefix_of` sorted P ∧
    ((∃ r, e = Completed r) → l1 = sorted P).
Proof.
  intros HP. unfold RunNotebooks.main.
  rewrite bool_decide_eq_true_2 by (destruct P; [done|simpl; lia]).
  cbn [drop]. rewrite drop_0. unfold RunNotebooks.batch. rewrite bind_eq.
  change (signal_alarm 570 σ) with (Ok tt, armed σ). cbv beta iota. rewrite bind_eq.
  destruct (build_loop (sorted P) (Counters [] 0 0) (armed σ)) as [res σ1] eqn:Hl.
  apply build_loop_trace in Hl as (l1 & blocks & Htr & Hb & Hpre & Hall).
  change (trace (armed σ)) with (trace σ ++ [EvAlarm 570]) in Htr.
  rewrite <- (assoc_L (++)) in Htr.
  destruct res as [v|e1].
  - destruct (finish (sorted P) v σ1) as [res' σ2] eqn:Hf.
    pose proof (finish_trace latency (trace σ1) _ _ _ _ _ Hf eq_refl) as Hf'.
    cbv beta in Hf'.
    intros He. exists l1, blocks. split.
    { destruct res'; injection He as <- <-; by rewrite Hf', Htr. }
    split; [done|]. split; [done|]. intros _. by apply Hall.
  - intros [= <- <-]. exists l1, blocks. split; [done|]. split; [done|].
    split; [done|]. by intros [? [=]].
Qed.

(** What a completed run reports. *)
Lemma main_report script P σ r σ' :
  main (script :: P) σ = (Completed r, σ') →
  let atts := attempts (sorted P) (armed σ) in
  let F := att_notebook <$> filter raised atts in
  att_notebook <$> atts = sorted P ∧
  r = Report (sorted P) F (filter (λ x, x ∉ F) (sorted P))
        (length (filter raised atts)) (length (filter (λ a, ¬ raised a) atts)).
Proof.
  intros (v & σ1 & [Hn ->]%build_loop_Ok & Hf)%main_Completed.
  apply finish_Ok in Hf as (-> & _). done.
Qed.

(** What a completed run leaves in its logs. *)
Lemma main_logs script P σ r σ' :
  main (script :: P) σ = (Completed r, σ') →
  files σ' !! "nb_errors.txt"
  = Some (default "" (files σ !! "nb_errors.txt") +:+ lines (failed r)) ∧
  files σ' !! "ipynb_files_built.txt" = Some (lines (succeeded r)).
Proof.
  intros (v & σ1 & Hl & Hf)%main_Completed.
  apply finish_Ok in Hf as (-> & _ & _ & _ & _ & _ & He & Hb & _).
  cbn [failed succeeded]. split; [|done].
  rewrite He. by rewrite (build_loop_files _ _ _ _ _ "nb_errors.txt" Hl).
Qed.

(** With a regular file in the place of the scratch directory no run gets
    to its last line: every attempt stops at line 58, and line 196 raises
    an exception that nothing catches. *)
Lemma regular_file_tmp_is_fatal script (P : list string) σ r σ' :
  ¬ tmp_clear σ → main (script :: P) σ ≠ (Completed r, σ').
Proof.
  intros Hblocked (v & σ1 & Hl & Hf)%main_Completed.
  apply finish_Ok in Hf as (_ & Hclear & _).
  revert Hclear.
  apply (build_loop_invariant (λ τ, ¬ tmp_clear τ))
    with (sorted P) (Counters [] 0 0) (armed σ) (Ok v); [| |done|done].
  - by intros n τ r' τ' (c & a & -> & _)%pause_inv.
  - intros p τ r' τ' (s & c & a & -> & _ & Hs & _)%try_body_inv Hτ.
    destruct s; [done|by destruct Hτ; apply Hs..].
Qed.


(** C3 (amended).  The notebooks are attempted one at a time in ascending
    order of their paths, [sorted(sys.argv[1:])]: however the run ends, its
    trace is the alarm call followed by one block of calls for each of the
    first notebooks of the sorted list, in that order, and for every one of
    them if the run completes. *)
Theorem notebooks_attempted_in_sorted_order script (P : list string) σ e σ' :
  P ≠ [] → main (script :: P) σ = (e, σ') →
  ∃ attempted blocks,
    trace σ' = trace σ ++ EvAlarm 570 :: concat blocks ∧
    Forall2 block attempted blocks ∧
    rebuilds (concat blocks) = attempted ∧
    attempted `prefix_of` sorted P ∧
    ((∃ r, e = Completed r) → attempted = sorted P) ∧
    Sorted String.le (sorted P) ∧ sorted P ≡ₚ P.
Proof.
  intros HP (l1 & blocks & Htr & Hb & Hpre & Hall)%main_trace; [|done].
  exists l1, blocks. split; [done|]. split; [done|].
  split; [by eapply blocks_rebuilds|]. split; [done|]. split; [done|].
  split; [apply sorted_Sorted|apply sorted_Permutation].
Qed.

(** C5.  Without paths on the command line the script exits at once with
    its usage message and leaves the state as it was: no notebook is
    attempted, no directory is created, no file is written. *)
Theorem no_paths_exits_early (argv : list string) σ :
  drop 1 argv = [] →
  main argv σ = (SystemExit "No notebooks to rebuild.", σ).
Proof.
  intros Hargv. unfold RunNotebooks.main.
  rewrite bool_decide_eq_false_2; [done|].
  destruct argv as [|? [|? ?]]; simpl in *; [lia|lia|done].
Qed.

(** C6.  In a run that completes, every notebook of the sorted list is
    attempted whatever happened to the ones before it; the failed list
    holds exactly the input paths of the attempts that raised; so if an
    attempt on [X] raises and no attempt on [Y] does, [X] is reported
    failed and [Y] succeeded. *)
Theorem failure_is_isolated script (P : list string) σ r σ' :
  main (script :: P) σ = (Completed r, σ') →
  let atts := attempts (sorted P) (armed σ) in
  att_notebook <$> atts = sorted P ∧
  failed r = att_notebook <$> filter raised atts ∧
  ∀ X Y, Y ∈ P →
    (∃ a, a ∈ atts ∧ att_notebook a = X ∧ raised a) →
    (∀ a, a ∈ atts → att_notebook a = Y → ¬ raised a) →
    (X ∈ failed r ∧ X ∉ succeeded r) ∧ (Y ∈ succeeded r ∧ Y ∉ failed r).
Proof.
  intros [Hn ->]%main_report atts. split; [done|]. split; [done|].
  cbn [failed succeeded]. fold atts. intros X Y HY HX HnY.
  assert (X ∈ att_notebook <$> filter raised atts) as HXF by by apply elem_of_failed.
  assert (Y ∉ att_notebook <$> filter raised atts) as HYF.
  { intros (a & Ha & Hn' & Hr)%elem_of_failed. by eapply HnY. }
  repeat split; [done| |by apply list_elem_of_filter, conj, elem_of_sorted|done].
  by intros [? _]%list_elem_of_filter.
Qed.

(** C7.  The alarm is set once, for 570 seconds, before the first notebook
    is attempted.  In a run that completes, an attempt either leaves the
    alarm as it found it or spends it: then the attempt ends with the
    handler's exception and its notebook is reported failed like any
    other.  Once spent, the alarm stays off for all later attempts, which
    still take place. *)
Theorem single_alarm script (P : list string) σ r σ' :
  main (script :: P) σ = (Completed r, σ') →
  let atts := attempts (sorted P) (armed σ) in
  alarm (armed σ) = Some (clock σ + 570)%N ∧
  (∃ rest, trace σ' = trace σ ++ EvAlarm 570 :: rest ∧
           alarms rest = [] ∧ rebuilds rest = sorted P) ∧
  att_notebook <$> atts = sorted P ∧
  (∀ a, a ∈ atts →
     (alarm (att_before a) = None ∨ alarm (att_before a) = Some (clock σ + 570)%N) ∧
     (alarm (att_after a) = alarm (att_before a) ∨
      (is_Some (alarm (att_before a)) ∧ alarm (att_after a) = None ∧
       att_result a = Raise handler ∧ att_notebook a ∈ failed r))) ∧
  (∀ l1 a l2, atts = l1 ++ a :: l2 → alarm (att_after a) = None →
     Forall (λ b, alarm (att_before b) = None ∧ alarm (att_after b) = None) l2).
Proof.
  intros Hmain atts. split; [done|].
  assert (P ≠ []) as HP.
  { intros ->. by vm_compute in Hmain. }
  split; [|split; [|split]].
  - destruct (main_trace _ _ _ _ _ HP Hmain) as (l1 & blocks & Htr & Hb & _ & Hall).
    rewrite Hall in Hb by eauto.
    exists (concat blocks). split; [done|].
    split; [by eapply blocks_alarms|by eapply blocks_rebuilds].
  - by apply main_report in Hmain as [? _].
  - intros a Ha. split.
    + pose proof (attempts_alarm_pending (sorted P) (armed σ) (clock σ + 570)%N) as Hp.
      rewrite Forall_forall in Hp. apply Hp; [by right|done].
    + pose proof (attempts_run _ _ _ Ha) as Hrun.
      apply try_body_alarm in Hrun as [?|(? & ? & Hr)]; [by left|right].
      repeat split; [done..|]. apply main_report in Hmain as [_ ->].
      cbn [failed]. apply elem_of_failed.
      exists a. repeat split; [done|]. unfold raised. by rewrite Hr.
  - intros l1 a l2 Hatts Hspent.
    apply attempts_tail in Hatts as [->|(l' & σ2 & -> & Hσ2)]; [constructor|].
    by apply attempts_alarm_spent, Hσ2.
Qed.


(** C10.  In a run that completes, a path one of whose attempts raised is
    left out of the succeeded list and so of the success log, also when
    another attempt on the same path went through. *)
Theorem failed_duplicate_masks_success script (P : list string) σ r σ' :
  main (script :: P) σ = (Completed r, σ') →
  let atts := attempts (sorted P) (armed σ) in
  files σ' !! "ipynb_files_built.txt" = Some (lines (succeeded r)) ∧
  ∀ a b, a ∈ atts → b ∈ atts → att_notebook a = att_notebook b →
    raised a → att_notebook b ∉ succeeded r.
Proof.
  intros Hmain atts. split; [by apply main_logs in Hmain as [_ ?]|].
  apply main_report in Hmain as [_ ->].
  cbn [succeeded]. fold atts. intros a b Ha Hb Hab Hr [HF _]%list_elem_of_filter.
  apply HF, elem_of_failed. eauto.
Qed.

End RebuildSpec.

Section Staging.
Variable nb_reads : string → option notebook.
Variable nb_writes : notebook → string.

Abbreviation nf_read := (nf_read nb_reads).
Abbreviation normalize_kernel_name := (normalize_kernel_name nb_writes).


End Staging.

(** *** The theorems at work on the sample environment *)




(** Given "b.ipynb" before "a.ipynb", the script attempts "a.ipynb" first. *)
Lemma command_line_order_not_kept :
  rebuilds (trace (sample_main ["run_notebooks.py"; "b.ipynb"; "a.ipynb"] sample_state).2)
  = ["a.ipynb"; "b.ipynb"] ∧
  rebuilds (trace (sample_main ["run_notebooks.py"; "b.ipynb"; "a.ipynb"] sample_state).2)
  ≠ ["b.ipynb"; "a.ipynb"].
Proof. split; [by vm_compute|]. vm_compute. discriminate. Qed.

Lemma notebooks_attempted_in_sorted_order_witness :
  let r := Report ["a.ipynb"; "b.ipynb"] ["b.ipynb"] ["a.ipynb"] 1 1 in
  let σ' := (sample_main ["run_notebooks.py"; "b.ipynb"; "a.ipynb"] sample_state).2 in
  ["b.ipynb"; "a.ipynb"] ≠ [] ∧
  sample_main ["run_notebooks.py"; "b.ipynb"; "a.ipynb"] sample_state = (Completed r, σ') ∧
  ∃ attempted blocks,
    trace σ' = trace sample_state ++ EvAlarm 570 :: concat blocks ∧
    Forall2 block attempted blocks ∧
    rebuilds (concat blocks) = attempted ∧
    attempted `prefix_of` sorted ["b.ipynb"; "a.ipynb"] ∧
    ((∃ r', Completed r = Completed r') → attempted = sorted ["b.ipynb"; "a.ipynb"]) ∧
    Sorted String.le (sorted ["b.ipynb"; "a.ipynb"]) ∧
    sorted ["b.ipynb"; "a.ipynb"] ≡ₚ ["b.ipynb"; "a.ipynb"].
Proof.
  intros r σ'.
  assert (["b.ipynb"; "a.ipynb"] ≠ []) as HP by done.
  assert (sample_main ["run_notebooks.py"; "b.ipynb"; "a.ipynb"] sample_state
          = (Completed r, σ')) as Hmain by (by vm_compute).
  split; [exact HP|]. split; [exact Hmain|].
  exact (notebooks_attempted_in_sorted_order sample_reads sample_writes sample_engine
           sample_latency "run_notebooks.py" ["b.ipynb"; "a.ipynb"] sample_state
           (Completed r) σ' HP Hmain).
Defined.

Lemma no_paths_exits_early_witness :
  drop 1 ["run_notebooks.py"] = [] ∧
  sample_main ["run_notebooks.py"] sample_state
  = (SystemExit "No notebooks to rebuild.", sample_state).
Proof.
  split; [reflexivity|].
  apply (no_paths_exits_early sample_reads sample_writes sample_engine sample_latency).
  reflexivity.
Defined.

Lemma failure_is_isolated_witness :
  let r := Report ["a.ipynb"; "b.ipynb"] ["b.ipynb"] ["a.ipynb"] 1 1 in
  let σ' := (sample_main ["run_notebooks.py"; "b.ipynb"; "a.ipynb"] sample_state).2 in
  let atts := sample_attempts ["b.ipynb"; "a.ipynb"] in
  sample_main ["run_notebooks.py"; "b.ipynb"; "a.ipynb"] sample_state = (Completed r, σ') ∧
  att_notebook <$> atts = sorted ["b.ipynb"; "a.ipynb"] ∧
  failed r = att_notebook <$> filter raised atts ∧
  ∀ X Y, Y ∈ ["b.ipynb"; "a.ipynb"] →
    (∃ a, a ∈ atts ∧ att_notebook a = X ∧ raised a) →
    (∀ a, a ∈ atts → att_notebook a = Y → ¬ raised a) →
    (X ∈ failed r ∧ X ∉ succeeded r) ∧ (Y ∈ succeeded r ∧ Y ∉ failed r).
Proof.
  intros r σ' atts.
  assert (sample_main ["run_notebooks.py"; "b.ipynb"; "a.ipynb"] sample_state
          = (Completed r, σ')) as Hmain by (by vm_compute).
  split; [exact Hmain|].
  exact (failure_is_isolated sample_reads sample_writes sample_engine sample_latency
           "run_notebooks.py" ["b.ipynb"; "a.ipynb"] sample_state r σ' Hmain).
Defined.

Lemma single_alarm_witness :
  let r := Report ["a.ipynb"; "b.ipynb"; "slow.ipynb"] ["b.ipynb"; "slow.ipynb"]
             ["a.ipynb"] 2 1 in
  let σ' := (sample_main ["run_notebooks.py"; "slow.ipynb"; "a.ipynb"; "b.ipynb"]
               sample_state).2 in
  let atts := sample_attempts ["slow.ipynb"; "a.ipynb"; "b.ipynb"] in
  sample_main ["run_notebooks.py"; "slow.ipynb"; "a.ipynb"; "b.ipynb"] sample_state
  = (Completed r, σ') ∧
  alarm (armed sample_state) = Some (clock sample_state + 570)%N ∧
  (∃ rest, trace σ' = trace sample_state ++ EvAlarm 570 :: rest ∧
           alarms rest = [] ∧
           rebuilds rest = sorted ["slow.ipynb"; "a.ipynb"; "b.ipynb"]) ∧
  att_notebook <$> atts = sorted ["slow.ipynb"; "a.ipynb"; "b.ipynb"] ∧
  (∀ a, a ∈ atts →
     (alarm (att_before a) = None
      ∨ alarm (att_before a) = Some (clock sample_state + 570)%N) ∧
     (alarm (att_after a) = alarm (att_before a) ∨
      (is_Some (alarm (att_before a)) ∧ alarm (att_after a) = None ∧
       att_result a = Raise handler ∧ att_notebook a ∈ failed r))) ∧
  (∀ l1 a l2, atts = l1 ++ a :: l2 → alarm (att_after a) = None →
     Forall (λ b, alarm (att_before b) = None ∧ alarm (att_after b) = None) l2).
Proof.
  intros r σ' atts.
  assert (sample_main ["run_notebooks.py"; "slow.ipynb"; "a.ipynb"; "b.ipynb"] sample_state
          = (Completed r, σ')) as Hmain by (by vm_compute).
  split; [exact Hmain|].
  exact (single_alarm sample_reads sample_writes sample_engine sample_latency
           "run_notebooks.py" ["slow.ipynb"; "a.ipynb"; "b.ipynb"] sample_state r σ' Hmain).
Defined.



Lemma failed_duplicate_masks_success_witness :
  let r := Report ["flaky.ipynb"; "flaky.ipynb"] ["flaky.ipynb"] [] 1 1 in
  let σ' := (sample_main ["run_notebooks.py"; "flaky.ipynb"; "flaky.ipynb"]
               sample_state).2 in
  let atts := sample_attempts ["flaky.ipynb"; "flaky.ipynb"] in
  sample_main ["run_notebooks.py"; "flaky.ipynb"; "flaky.ipynb"] sample_state
  = (Completed r, σ') ∧
  files σ' !! "ipynb_files_built.txt" = Some (lines (succeeded r)) ∧
  ∀ a b, a ∈ atts → b ∈ atts → att_notebook a = att_notebook b →
    raised a → att_notebook b ∉ succeeded r.
Proof.
  intros r σ' atts.
  assert (sample_main ["run_notebooks.py"; "flaky.ipynb"; "flaky.ipynb"] sample_state
          = (Completed r, σ')) as Hmain by (by vm_compute).
  split; [exact Hmain|].
  exact (failed_duplicate_masks_success sample_reads sample_writes sample_engine
           sample_latency "run_notebooks.py" ["flaky.ipynb"; "flaky.ipynb"] sample_state
           r σ' Hmain).
Defined.

(** The scenarios of the specification, run on the sample environment. *)

Example scenario_one_fails :
  let '(e, σ') := sample_main ["run_notebooks.py"; "a.ipynb"; "b.ipynb"] sample_state in
  e = Completed (Report ["a.ipynb"; "b.ipynb"] ["b.ipynb"] ["a.ipynb"] 1 1) ∧
  files σ' !! "nb_errors.txt" = Some (lines ["old.ipynb"; "b.ipynb"]) ∧
  files σ' !! "ipynb_files_built.txt" = Some (lines ["a.ipynb"]) ∧
  dirs σ' = ∅.
Proof. by vm_compute. Qed.

(** The first run of "flaky.ipynb" fails and the second goes through: one
    notebook is counted as built, yet none is listed as succeeded. *)
Example scenario_duplicate :
  let '(e, σ') :=
    sample_main ["run_notebooks.py"; "flaky.ipynb"; "flaky.ipynb"] sample_state in
  e = Completed (Report ["flaky.ipynb"; "flaky.ipynb"] ["flaky.ipynb"] [] 1 1) ∧
  files σ' !! "ipynb_files_built.txt" = Some "".
Proof. by vm_compute. Qed.

(** "./slow.ipynb" is cut short when the alarm falls due; run again later
    in the same batch, under another path, the notebook is no longer
    timed. *)
Example scenario_timeout :
  let '(e, σ') :=
    sample_main ["run_notebooks.py"; "slow.ipynb"; "a.ipynb"; "./slow.ipynb"]
      sample_state in
  e = Completed (Report ["./slow.ipynb"; "a.ipynb"; "slow.ipynb"] ["./slow.ipynb"]
                   ["a.ipynb"; "slow.ipynb"] 1 2) ∧
  alarm σ' = None ∧ clock σ' = 1230%N.
Proof. by vm_compute. Qed.

(** A path through a directory that is not there names no file, even if
    it normalises to the path of one. *)
Example scenario_missing_directory :
  normpath "x/../a.ipynb" = "a.ipynb" ∧
  read_text "x/../a.ipynb" sample_state
  = (Raise (Exception "FileNotFoundError" "x/../a.ipynb"), sample_state) ∧
  (sample_main ["run_notebooks.py"; "x/../a.ipynb"] sample_state).1
  = Completed (Report ["x/../a.ipynb"] ["x/../a.ipynb"] [] 1 0).
Proof. by vm_compute. Qed.

(** With a regular file named "tmp" in the directory, "a.ipynb" cannot be
    staged, the clean-up raises an exception that nothing catches, and the
    logs stay as they were. *)
Example scenario_regular_file_tmp :
  let '(e, σ') := sample_main ["run_notebooks.py"; "a.ipynb"] blocked_state in
  e = Uncaught (Exception "NotADirectoryError" "./tmp") ∧
  att_result <$> attempts sample_reads sample_writes sample_engine sample_latency
                   ["a.ipynb"] (armed blocked_state)
  = [Raise (Exception "FileExistsError" "./tmp")] ∧
  files σ' = files blocked_state ∧ dirs σ' = ∅.
Proof. by vm_compute. Qed.

(** When the script stalls between two notebooks until the alarm falls due,
    the handler's exception is raised outside the [try] statement: the run
    stops there, "b.ipynb" is never attempted and no log is written. *)
Example scenario_alarm_between_notebooks :
  let '(e, σ') :=
    main sample_reads sample_writes sample_engine stalled
      ["run_notebooks.py"; "a.ipynb"; "b.ipynb"] sample_state in
  e = Uncaught handler ∧
  rebuilds (trace σ') = ["a.ipynb"] ∧
  files σ' !! "nb_errors.txt" = files sample_state !! "nb_errors.txt" ∧
  files σ' !! "ipynb_files_built.txt" = files sample_state !! "ipynb_files_built.txt" ∧
  dirs σ' = {["tmp"]}.
Proof. by vm_compute. Qed.

End RunNotebooksSpec.

(** ** More on the change detector *)

Module ParseCommitMore.
Import Py PyFacts Os OsFacts ParseCommit.







Lemma isspace_LF : isspace LF = true.
Proof. reflexivity. Qed.



Lemma rstrip_all_space ws : all_space ws = true → rstrip ws = "".
Proof.
  induction ws as [|c ws IH]; [done|]. simpl. intros [Hc Hws]%andb_true_iff.
  by rewrite IH, Hc.
Qed.

Lemma rstrip_app_space p ws : all_space ws = true → rstrip (p +:+ ws) = rstrip p.
Proof.
  intros Hws. induction p as [|c p IH]; [by apply rstrip_all_space|].
  rewrite app_cons. simpl. by rewrite IH.
Qed.

Lemma strip_line s : strip (line s) = strip s.
Proof.
  unfold strip, line. induction s as [|c s IH]; [done|].
  rewrite app_cons. simpl. destruct (isspace c); [done|].
  by rewrite <- app_cons, rstrip_app_space.
Qed.


Lemma lstrip_fixed s : head_space s = false → lstrip s = s.
Proof. destruct s as [|c s]; [done|]. simpl. by intros ->. Qed.

Lemma rstrip_fixed s : last_space s = false → rstrip s = s.
Proof.
  induction s as [|c s IH]; [done|]. destruct s as [|c' s].
  - simpl. by intros ->.
  - intros Hs. change (last_space (String c (String c' s))) with (last_space (String c' s)) in Hs.
    specialize (IH Hs). change (rstrip (String c (String c' s)))
      with (match rstrip (String c' s) with
            | "" => if isspace c then "" else String c ""
            | r => String c r end).
    by rewrite IH.
Qed.

(** A stripped string is left alone by [strip]. *)
Lemma strip_strip s : strip (strip s) = strip s.
Proof.
  destruct (strip_spec s) as (_ & _ & _ & _ & _ & Hh & Hl).
  unfold strip at 1. by rewrite lstrip_fixed, rstrip_fixed.
Qed.

Lemma filter_all {A} (Q : A → Prop) `{!∀ x, Decision (Q x)} (l : list A) :
  Forall Q l → filter Q l = l.
Proof.
  induction 1 as [|x l Hx _ IH]; [done|]. by rewrite filter_cons_True, IH.
Qed.

Lemma changed_notebooks_fixed (ps : list string) :
  Forall (λ p, strip p = p ∧ endswith p ".ipynb" = true) ps →
  changed_notebooks ps = ps ∧ changed_notebooks (line <$> ps) = ps.
Proof.
  intros Hps. unfold changed_notebooks.
  assert (strip <$> ps = ps) as Hstrip.
  { induction Hps as [|p ps [Hp _] _ IH]; [done|]. by rewrite fmap_cons, Hp, IH. }
  assert (strip <$> (line <$> ps) = ps) as Hline.
  { rewrite <- list_fmap_compose. rewrite <- Hstrip at 2.
    apply list_fmap_ext. intros _ p _. simpl. apply strip_line. }
  rewrite Hline, Hstrip. split; apply filter_all;
    (eapply Forall_impl; [done|]); intros p [_ Hp]; simpl; by rewrite Hp.
Qed.

Lemma changed_notebooks_stripped L :
  Forall (λ p, strip p = p ∧ endswith p ".ipynb" = true) (changed_notebooks L).
Proof.
  apply Forall_forall. intros p [Hp Hin]%list_elem_of_filter.
  apply list_elem_of_fmap in Hin as (l & -> & _).
  split; [apply strip_strip|by apply Is_true_true].
Qed.

(** X3.  Running the filter on its own result, given as it is or one path per
    line, changes nothing. *)
Theorem changed_notebooks_idempotent (L : list string) :
  changed_notebooks (changed_notebooks L) = changed_notebooks L ∧
  changed_notebooks (line <$> changed_notebooks L) = changed_notebooks L.
Proof. apply changed_notebooks_fixed, changed_notebooks_stripped. Qed.

(** X1.  Without the input file the script stops with [FileNotFoundError] before
    it opens the output file: the directory is left as it was. *)
Theorem missing_input_is_fatal σ :
  files σ !! "changed_files.txt" = None →
  "changed_files.txt" ∉ dirs σ →
  script σ = (Raise (Exception "FileNotFoundError" "changed_files.txt"), σ).
Proof.
  intros Hf Hd. unfold script. rewrite bind_eq. unfold read_text.
  rewrite bind_eq. cbn [get]. change (key "changed_files.txt") with "changed_files.txt".
  change (names_file "changed_files.txt") with true. cbn [negb orb].
  rewrite bool_decide_eq_false_2 by done. by rewrite Hf.
Qed.



(** *** The theorems at work *)

Lemma missing_input_is_fatal_witness :
  files empty_directory !! "changed_files.txt" = None ∧
  ("changed_files.txt" ∉ dirs empty_directory) ∧
  script empty_directory
  = (Raise (Exception "FileNotFoundError" "changed_files.txt"), empty_directory).
Proof.
  split; [reflexivity|]. split; [apply not_elem_of_empty|].
  apply missing_input_is_fatal; [reflexivity|apply not_elem_of_empty].
Defined.


Example scenario_reads_back :
  (script sample_commit).1 = Ok ["lesson1.ipynb"; "lesson2.ipynb"] ∧
  files (script sample_commit).2 !! "changed_notebooks.txt"
  = Some (lines ["lesson1.ipynb"; "lesson2.ipynb"]).
Proof. by vm_compute. Qed.

End ParseCommitMore.

(** ** More on the batch rebuilder *)

Module RunNotebooksMore.
Import Py PyFacts Os OsFacts RunNotebooks RunNotebooksSpec.

Lemma length_filter_complement {A} (Q : A → Prop) `{!∀ x, Decision (Q x)} (l : list A) :
  length (filter Q l) + length (filter (λ x, ¬ Q x) l) = length l.
Proof. by rewrite <- length_app, filter_app_complement. Qed.

Lemma succeeded_le (atts : list attempt) (F : list string) :
  (∀ a, a ∈ atts → raised a → att_notebook a ∈ F) →
  length (filter (λ x, x ∉ F) (att_notebook <$> atts))
  ≤ length (filter (λ a, ¬ raised a) atts).
Proof.
  induction atts as [|a atts IH]; intros HF; [done|].
  rewrite fmap_cons, !filter_cons.
  assert (length (filter (λ x, x ∉ F) (att_notebook <$> atts))
          ≤ length (filter (λ a, ¬ raised a) atts)) as Hle.
  { apply IH. intros b Hb. apply HF. by right. }
  destruct (decide (att_notebook a ∉ F)) as [Ha|Ha];
    destruct (decide (¬ raised a)) as [Hr|Hr]; simpl; try lia.
  exfalso. apply Ha, HF; [by left|]. by destruct (decide (raised a)).
Qed.

Lemma succeeded_ge (atts : list attempt) (F : list string) :
  (∀ a, a ∈ atts → ¬ raised a → att_notebook a ∉ F) →
  length (filter (λ a, ¬ raised a) atts)
  ≤ length (filter (λ x, x ∉ F) (att_notebook <$> atts)).
Proof.
  induction atts as [|a atts IH]; intros HF; [done|].
  rewrite fmap_cons, !filter_cons.
  assert (length (filter (λ a, ¬ raised a) atts)
          ≤ length (filter (λ x, x ∉ F) (att_notebook <$> atts))) as Hle.
  { apply IH. intros b Hb. apply HF. by right. }
  destruct (decide (att_notebook a ∉ F)) as [Ha|Ha];
    destruct (decide (¬ raised a)) as [Hr|Hr]; simpl; try lia.
  exfalso. apply Ha, HF; [by left|done].
Qed.

Lemma NoDup_fmap_elem_inj {A B} (f : A → B) (l : list A) a b :
  NoDup (f <$> l) → a ∈ l → b ∈ l → f a = f b → a = b.
Proof.
  intros Hnd [i Hi]%list_elem_of_lookup [j Hj]%list_elem_of_lookup Hab.
  assert (i = j) as ->; [|congruence].
  eapply NoDup_lookup; [done|..]; rewrite list_lookup_fmap.
  - by rewrite Hi.
  - rewrite Hj. simpl. by rewrite Hab.
Qed.

Lemma StronglySorted_sublist {A} (R : relation A) (l1 l2 : list A) :
  l1 `sublist_of` l2 → StronglySorted R l2 → StronglySorted R l1.
Proof.
  induction 1 as [|x l1 l2 Hs IH|x l1 l2 Hs IH]; [done|..].
  - intros [Hx Hl]%StronglySorted_cons. apply StronglySorted_cons.
    split; [|by apply IH]. rewrite Forall_forall in *.
    intros y Hy. apply Hx. by eapply elem_of_sublist.
  - intros [_ Hl]%StronglySorted_cons. by apply IH.
Qed.

Lemma Sorted_sublist (l1 l2 : list string) :
  l1 `sublist_of` l2 → Sorted String.le l2 → Sorted String.le l1.
Proof.
  intros Hs Hl. apply StronglySorted_Sorted.
  eapply StronglySorted_sublist; [done|].
  by apply (Sorted_StronglySorted String.le).
Qed.

(** X10.  Notebooks that name a file are staged at the same place exactly when
    their file names agree, whatever their directories. *)
Theorem staging_collides_on_file_name (p q : string) :
  proper (basename p) → proper (basename q) →
  (staged p = staged q ↔ basename p = basename q).
Proof.
  intros Hp Hq.
  destruct (staged_proper p Hp) as [-> _]. destruct (staged_proper q Hq) as [-> _].
  split; [|by intros ->]. by intros ?%(inj (String.app "tmp/")).
Qed.

Section NormalizeMore.
Variable nb_writes : notebook → string.

Abbreviation normalize_kernel_name := (normalize_kernel_name nb_writes).



End NormalizeMore.

Section RebuildMore.
#[local] Set Default Proof Using "Type".
Variable nb_reads : string → option notebook.
Variable nb_writes : notebook → string.
Variable engine : nat → string → string → run.
Variable latency : nat → state → N.

Abbreviation nf_read := (nf_read nb_reads).
Abbreviation pause := (pause latency).
Abbreviation rebuild_notebook := (rebuild_notebook nb_reads nb_writes engine latency).
Abbreviation try_body := (try_body nb_reads nb_writes engine latency).
Abbreviation build_loop := (build_loop nb_reads nb_writes engine latency).
Abbreviation attempts := (attempts nb_reads nb_writes engine latency).
Abbreviation main := (main nb_reads nb_writes engine latency).

(** X4.  The order of the arguments, and the name of the script, make no
    difference to a run. *)
Theorem argument_order_irrelevant script script' (P P' : list string) σ :
  P ≡ₚ P' → main (script :: P) σ = main (script' :: P') σ.
Proof.
  intros HP. unfold RunNotebooks.main. cbn [drop length]. cbv zeta.
  rewrite (Permutation_length HP).
  assert (sorted P = sorted P') as Hs.
  { apply sorted_unique; [|apply sorted_Sorted]. by rewrite sorted_Permutation. }
  rewrite !drop_0. by rewrite Hs.
Qed.

(** X5.  When a run completes, the counters of the loop add up to the
    number of paths; the failed counter is the length of the failed list;
    the built counter is at least the length of the succeeded list, and
    equal to it when no path is repeated. *)
Theorem counters_add_up script (P : list string) σ r σ' :
  main (script :: P) σ = (Completed r, σ') →
  count_failed r + count_built r = length P ∧
  count_failed r = length (failed r) ∧
  length (succeeded r) ≤ count_built r ∧
  (NoDup P → length (succeeded r) = count_built r).
Proof.
  intros [Hnames ->]%main_report.
  cbn [count_failed count_built failed succeeded].
  set (atts := attempts (sorted P) (armed σ)) in *.
  split; [|split; [by rewrite length_fmap|]].
  - rewrite length_filter_complement.
    rewrite <- (length_fmap att_notebook), Hnames.
    by rewrite sorted_Permutation.
  - rewrite <- Hnames. split.
    + apply succeeded_le. intros a Ha Hr. apply elem_of_failed. eauto.
    + intros Hnd. apply Nat.le_antisymm.
      * apply succeeded_le. intros a Ha Hr. apply elem_of_failed. eauto.
      * apply succeeded_ge. intros a Ha Hr (b & Hb & Hab & Hrb)%elem_of_failed.
        assert (b = a) as ->; [|done].
        eapply (NoDup_fmap_elem_inj att_notebook); [|done..].
        rewrite Hnames. by rewrite sorted_Permutation.
Qed.

(** X6.  After a run that completed, [os.path.exists] finds nothing at
    "./tmp"; and in a file system where entries below "tmp" are there only
    if "tmp" is a directory, nothing is left at or below it, whether
    notebooks failed or not. *)
Theorem scratch_directory_removed script (P : list string) σ r σ' :
  main (script :: P) σ = (Completed r, σ') →
  path_exists (join "." "tmp") σ' = (Ok false, σ') ∧
  (scratch_wf σ → ∀ k, below "tmp" k = true → files σ' !! k = None ∧ k ∉ dirs σ').
Proof.
  intros (v & σ1 & Hl & Hf)%main_Completed.
  apply finish_Ok in Hf as (_ & _ & _ & _ & _ & _ & _ & _ & Hnd & Hnf & _ & Hgone).
  split.
  - rewrite path_exists_tmp, bool_decide_eq_false_2; [done|].
    intros [?|[? ?]]; [done|congruence].
  - intros Hwf. apply Hgone.
    exact (build_loop_invariant nb_reads nb_writes engine latency scratch_wf
             (pause_wf latency) (try_body_wf nb_reads nb_writes engine latency)
             _ _ _ _ _ Hl Hwf).
Qed.

(** X8.  The failed and the succeeded paths of a completed run are sublists
    of the sorted arguments, hence in ascending order, and they are what
    the run writes: the failed paths at the end of nb_errors.txt, after
    what the file held before, and the succeeded ones as
    ipynb_files_built.txt. *)
Theorem logs_in_sorted_order script (P : list string) σ r σ' :
  main (script :: P) σ = (Completed r, σ') →
  failed r `sublist_of` sorted P ∧ succeeded r `sublist_of` sorted P ∧
  Sorted String.le (failed r) ∧ Sorted String.le (succeeded r) ∧
  files σ' !! "nb_errors.txt"
  = Some (default "" (files σ !! "nb_errors.txt") +:+ lines (failed r)) ∧
  files σ' !! "ipynb_files_built.txt" = Some (lines (succeeded r)).
Proof.
  intros Hmain. pose proof (main_logs _ _ _ _ _ _ _ _ _ Hmain) as [He Hb].
  apply main_report in Hmain as [Hn Hr].
  assert (failed r `sublist_of` sorted P) as HF.
  { rewrite Hr. cbn [failed]. rewrite <- Hn at 2. apply fmap_sublist, sublist_filter. }
  assert (succeeded r `sublist_of` sorted P) as HS.
  { rewrite Hr. apply sublist_filter. }
  split; [done|]. split; [done|].
  split; [by eapply Sorted_sublist, sorted_Sorted|].
  split; [by eapply Sorted_sublist, sorted_Sorted|done].
Qed.

Lemma attempts_no_alarm l σ :
  alarm σ = None → filter timed_out (attempts l σ) = [].
Proof.
  intros Hσ. pose proof (attempts_alarm_spent nb_reads nb_writes engine latency l σ Hσ) as H.
  induction H as [|a atts [Hb _] _ IH]; [done|].
  rewrite filter_cons_False; [done|]. intros [[? Hs] _]. congruence.
Qed.

(** X9.  The alarm cuts short at most one attempt of a batch, and that attempt
    ends with the exception of the handler. *)
Theorem at_most_one_timeout (l : list string) σ :
  length (filter timed_out (attempts l σ)) ≤ 1 ∧
  ∀ a, a ∈ attempts l σ → timed_out a → att_result a = Raise handler.
Proof.
  split.
  - revert σ. induction l as [|x l IH]; intros σ; [simpl; lia|].
    destruct (attempts (x :: l) σ) as [|a rest] eqn:Hatts; [simpl; lia|].
    rewrite filter_cons. case_decide as Ht.
    + destruct Ht as [_ Ht].
      destruct (attempts_tail nb_reads nb_writes engine latency _ _ [] _ _ Hatts)
        as [->|(l' & σ2 & -> & Hσ2)]; [simpl; lia|].
      rewrite attempts_no_alarm by auto. simpl. lia.
    + rewrite attempts_cons in Hatts.
      destruct (pause 177 σ) as [[[]|e] σ0]; [|done].
      destruct (try_body x σ0) as [[[]|e] σ1]; injection Hatts as _ <-; [apply IH|].
      destruct (pause 184 σ1) as [[[]|e'] σ2]; [apply IH|simpl; lia].
  - intros a Ha [Hb Hn].
    pose proof (attempts_run _ _ _ _ _ _ _ Ha) as Hrun.
    apply try_body_alarm in Hrun as [Heq|(_ & _ & Hr)]; [|done].
    rewrite Hn in Heq. destruct Hb as [? Hb]. congruence.
Qed.

(** X13.  Where the path holds no text that reads as a notebook, the call
    of [rebuild_notebook] raises, the engine is not invoked and no file is
    written. *)
Theorem unreadable_never_executed p σ :
  (∀ text, files σ !! key p = Some text → nb_reads text = None) →
  ∃ e σ', rebuild_notebook p σ = (Raise e, σ') ∧
    runs σ' = runs σ ∧ files σ' = files σ ∧ trace σ' = trace σ ++ [EvRebuild p].
Proof.
  intros Hno. unfold RunNotebooks.rebuild_notebook. rewrite bind_eq. cbn [modify].
  rewrite bind_eq.
  destruct (pause 117 _) as [r1 σ1] eqn:H1.
  apply pause_inv in H1 as (c1 & a1 & -> & _ & [-> | ->]); [|by eexists _, _].
  rewrite bind_eq. set (σ1 := State _ _ _ _ _ _) in *.
  destruct (generate_paths p σ1) as [r2 σ2] eqn:H2.
  apply generate_paths_inv in H2 as [(-> & -> & _)|(-> & -> & _)]; [|by eexists _, _].
  rewrite bind_eq. unfold getitem at 1. rewrite lookup_singleton_eq.
  unfold mret at 1, M_ret at 1, ret at 1. cbv beta iota. rewrite bind_eq.
  set (σ2 := set_dirs _ σ1).
  destruct (pause 121 σ2) as [r3 σ3] eqn:H3.
  apply pause_inv in H3 as (c3 & a3 & -> & _ & [-> | ->]); [|by eexists _, _].
  rewrite bind_eq. set (σ3 := State _ _ c3 a3 _ _) in *.
  destruct (nf_read_unreadable nb_reads p σ σ3 Hno eq_refl) as (e & ->).
  by eexists _, _.
Qed.

(** X14.  Two runs in a row, the second starting from the directory the
    first left (it sets an alarm of its own): nb_errors.txt gathers the
    failed paths of both, in the order of the runs, while
    ipynb_files_built.txt only tells of the second. *)
Theorem failure_log_accumulates script1 script2 (P1 P2 : list string) σ r1 σ1 r2 σ2 :
  P1 ≠ [] → P2 ≠ [] →
  main (script1 :: P1) σ = (Completed r1, σ1) →
  main (script2 :: P2) σ1 = (Completed r2, σ2) →
  files σ2 !! "nb_errors.txt"
  = Some (default "" (files σ !! "nb_errors.txt")
          +:+ lines (failed r1) +:+ lines (failed r2)) ∧
  files σ2 !! "ipynb_files_built.txt" = Some (lines (succeeded r2)).
Proof.
  intros HP1 HP2 [He1 _]%main_logs [He2 Hb2]%main_logs.
  split; [|done]. rewrite He2, He1. simpl. by rewrite app_assoc.
Qed.

End RebuildMore.

(** *** The theorems at work on the sample environment *)

Lemma argument_order_irrelevant_witness :
  ["b.ipynb"; "a.ipynb"] ≡ₚ ["a.ipynb"; "b.ipynb"] ∧
  sample_main ["scripts/run_notebooks.py"; "b.ipynb"; "a.ipynb"] sample_state
  = sample_main ["run_notebooks.py"; "a.ipynb"; "b.ipynb"] sample_state.
Proof.
  split; [apply perm_swap|].
  apply (argument_order_irrelevant sample_reads sample_writes sample_engine sample_latency).
  apply perm_swap.
Defined.

Lemma counters_add_up_witness :
  let r := Report ["flaky.ipynb"; "flaky.ipynb"] ["flaky.ipynb"] [] 1 1 in
  let σ' := (sample_main ["run_notebooks.py"; "flaky.ipynb"; "flaky.ipynb"]
               sample_state).2 in
  sample_main ["run_notebooks.py"; "flaky.ipynb"; "flaky.ipynb"] sample_state
  = (Completed r, σ') ∧
  count_failed r + count_built r = length ["flaky.ipynb"; "flaky.ipynb"] ∧
  count_failed r = length (failed r) ∧
  length (succeeded r) ≤ count_built r ∧
  (NoDup ["flaky.ipynb"; "flaky.ipynb"] → length (succeeded r) = count_built r).
Proof.
  intros r σ'.
  assert (sample_main ["run_notebooks.py"; "flaky.ipynb"; "flaky.ipynb"] sample_state
          = (Completed r, σ')) as Hmain by (by vm_compute).
  split; [exact Hmain|].
  exact (counters_add_up sample_reads sample_writes sample_engine sample_latency
           "run_notebooks.py" ["flaky.ipynb"; "flaky.ipynb"] sample_state r σ' Hmain).
Defined.

Lemma sample_scratch_wf : scratch_wf sample_state.
Proof.
  intros k Hk [[v Hv]|Hd]; [|by apply not_elem_of_empty in Hd].
  exfalso. apply elem_of_map_to_list in Hv.
  assert (k ∈ (map_to_list sample_files).*1) as Hin
    by (by apply (list_elem_of_fmap_2 fst) in Hv).
  assert ((map_to_list sample_files).*1
          = ["slow.ipynb"; "ipynb_files_built.txt"; "a.ipynb"; "nb_errors.txt";
             "flaky.ipynb"; "b.ipynb"]) as Hkeys by (by vm_compute).
  rewrite Hkeys in Hin. clear Hv Hkeys.
  repeat (apply elem_of_cons in Hin as [->|Hin]; [by vm_compute in Hk|]).
  by apply elem_of_nil in Hin.
Qed.

Lemma scratch_directory_removed_witness :
  let r := Report ["a.ipynb"; "b.ipynb"] ["b.ipynb"] ["a.ipynb"] 1 1 in
  let σ' := (sample_main ["run_notebooks.py"; "b.ipynb"; "a.ipynb"] sample_state).2 in
  sample_main ["run_notebooks.py"; "b.ipynb"; "a.ipynb"] sample_state = (Completed r, σ') ∧
  scratch_wf sample_state ∧
  path_exists (join "." "tmp") σ' = (Ok false, σ') ∧
  (∀ k, below "tmp" k = true → files σ' !! k = None ∧ k ∉ dirs σ').
Proof.
  intros r σ'.
  assert (sample_main ["run_notebooks.py"; "b.ipynb"; "a.ipynb"] sample_state
          = (Completed r, σ')) as Hmain by (by vm_compute).
  destruct (scratch_directory_removed sample_reads sample_writes sample_engine
              sample_latency "run_notebooks.py" ["b.ipynb"; "a.ipynb"] sample_state
              r σ' Hmain) as [Hgone Hbelow].
  split; [exact Hmain|]. split; [exact sample_scratch_wf|]. split; [exact Hgone|].
  exact (Hbelow sample_scratch_wf).
Defined.

Lemma logs_in_sorted_order_witness :
  let r := Report ["a.ipynb"; "b.ipynb"] ["b.ipynb"] ["a.ipynb"] 1 1 in
  let σ' := (sample_main ["run_notebooks.py"; "b.ipynb"; "a.ipynb"] sample_state).2 in
  sample_main ["run_notebooks.py"; "b.ipynb"; "a.ipynb"] sample_state = (Completed r, σ') ∧
  failed r `sublist_of` sorted ["b.ipynb"; "a.ipynb"] ∧
  succeeded r `sublist_of` sorted ["b.ipynb"; "a.ipynb"] ∧
  Sorted String.le (failed r) ∧ Sorted String.le (succeeded r) ∧
  files σ' !! "nb_errors.txt"
  = Some (default "" (files sample_state !! "nb_errors.txt") +:+ lines (failed r)) ∧
  files σ' !! "ipynb_files_built.txt" = Some (lines (succeeded r)).
Proof.
  intros r σ'.
  assert (sample_main ["run_notebooks.py"; "b.ipynb"; "a.ipynb"] sample_state
          = (Completed r, σ')) as Hmain by (by vm_compute).
  split; [exact Hmain|].
  exact (logs_in_sorted_order sample_reads sample_writes sample_engine sample_latency
           "run_notebooks.py" ["b.ipynb"; "a.ipynb"] sample_state r σ' Hmain).
Defined.

Lemma staging_collides_on_file_name_witness :
  proper (basename "lessons/a.ipynb") ∧ proper (basename "drafts/a.ipynb") ∧
  (staged "lessons/a.ipynb" = staged "drafts/a.ipynb"
   ↔ basename "lessons/a.ipynb" = basename "drafts/a.ipynb").
Proof.
  assert (proper "a.ipynb") as Hp by (by repeat split).
  split; [exact Hp|]. split; [exact Hp|].
  exact (staging_collides_on_file_name "lessons/a.ipynb" "drafts/a.ipynb" Hp Hp).
Defined.



Lemma unreadable_never_executed_witness :
  (∀ text, files sample_state !! key "nb_errors.txt" = Some text →
           sample_reads text = None) ∧
  ∃ e σ',
    rebuild_notebook sample_reads sample_writes sample_engine sample_latency
      "nb_errors.txt" sample_state = (Raise e, σ') ∧
    runs σ' = runs sample_state ∧ files σ' = files sample_state ∧
    trace σ' = trace sample_state ++ [EvRebuild "nb_errors.txt"].
Proof.
  assert (∀ text, files sample_state !! key "nb_errors.txt" = Some text →
                  sample_reads text = None) as Hno.
  { intros text Ht. vm_compute in Ht. by injection Ht as <-. }
  split; [exact Hno|].
  exact (unreadable_never_executed sample_reads sample_writes sample_engine sample_latency
           "nb_errors.txt" sample_state Hno).
Defined.

Lemma failure_log_accumulates_witness :
  let r1 := Report ["a.ipynb"; "b.ipynb"] ["b.ipynb"] ["a.ipynb"] 1 1 in
  let σ1 := (sample_main ["run_notebooks.py"; "a.ipynb"; "b.ipynb"] sample_state).2 in
  let r2 := Report ["b.ipynb"] ["b.ipynb"] [] 1 0 in
  let σ2 := (sample_main ["run_notebooks.py"; "b.ipynb"] σ1).2 in
  ["a.ipynb"; "b.ipynb"] ≠ [] ∧ ["b.ipynb"] ≠ [] ∧
  sample_main ["run_notebooks.py"; "a.ipynb"; "b.ipynb"] sample_state = (Completed r1, σ1) ∧
  sample_main ["run_notebooks.py"; "b.ipynb"] σ1 = (Completed r2, σ2) ∧
  files σ2 !! "nb_errors.txt"
  = Some (default "" (files sample_state !! "nb_errors.txt")
          +:+ lines (failed r1) +:+ lines (failed r2)) ∧
  files σ2 !! "ipynb_files_built.txt" = Some (lines (succeeded r2)).
Proof.
  intros r1 σ1 r2 σ2.
  assert (sample_main ["run_notebooks.py"; "a.ipynb"; "b.ipynb"] sample_state
          = (Completed r1, σ1)) as H1 by (by vm_compute).
  assert (sample_main ["run_notebooks.py"; "b.ipynb"] σ1 = (Completed r2, σ2)) as H2
    by (by vm_compute).
  split; [done|]. split; [done|]. split; [exact H1|]. split; [exact H2|].
  apply (failure_log_accumulates sample_reads sample_writes sample_engine sample_latency
           "run_notebooks.py" "run_notebooks.py" ["a.ipynb"; "b.ipynb"] ["b.ipynb"]
           sample_state r1 σ1 r2 σ2); done.
Defined.

(** "a/x" and "b/x" in one batch: the second staged copy takes the place of
    the first. *)
Example scenario_same_file_name :
  staged "lessons/a.ipynb" = "tmp/a.ipynb" ∧ staged "./a.ipynb" = "tmp/a.ipynb".
Proof. by vm_compute. Qed.

End RunNotebooksMore.

(** ** The colour bins of the cloud-mask demo *)

Module CloudMasksSpec.
Import Os CloudMasks.

Lemma from_end_cons a bins i :
  i < length bins → from_end (a :: bins) i = from_end bins i.
Proof.
  intros Hi. unfold from_end. rewrite reverse_cons, lookup_app_l; [done|].
  by rewrite length_reverse.
Qed.

Lemma bounds_of_bins_chain a b rest :
  bounds_of_bins (a :: b :: rest) = Ok (chain a b rest).
Proof.
  revert a b. induction rest as [|c rest IH]; intros a b; [done|].
  specialize (IH b c). unfold bounds_of_bins in *.
  rewrite !(from_end_cons a) by (simpl; lia).
  destruct (from_end (b :: c :: rest) 0) as [l|]; [|done].
  destruct (from_end (b :: c :: rest) 1) as [p|]; [|done].
  injection IH as IH. simpl chain. rewrite <- IH. done.
Qed.

Lemma chain_length a b rest : length (chain a b rest) = S (S (length rest)).
Proof. revert a b. induction rest as [|c rest IH]; intros a b; simpl; [done|]. by rewrite IH. Qed.

Lemma chain_head a b rest : ∃ tl, chain a b rest = midpoint a b :: tl.
Proof. destruct rest; simpl; eauto. Qed.

Lemma midpoint_lt a b c : (a < c)%Z → (midpoint a b < midpoint b c)%Q.
Proof. intros H. unfold midpoint, Qlt. simpl. lia. Qed.

Lemma midpoint_lt_last a b : (a < b)%Z → (midpoint a b < inject_Z ((b - a) + b))%Q.
Proof. intros H. unfold midpoint, Qlt. simpl. lia. Qed.

Lemma midpoint_le_r a b : (a ≤ b)%Z → (midpoint a b <= inject_Z b)%Q.
Proof. intros H. unfold midpoint, Qle. simpl. lia. Qed.

Lemma midpoint_gt_l a b : (a < b)%Z → (inject_Z a < midpoint a b)%Q.
Proof. intros H. unfold midpoint, Qlt. simpl. lia. Qed.

Lemma last_gt a b : (a < b)%Z → (inject_Z b < inject_Z ((b - a) + b))%Q.
Proof. intros H. unfold Qlt. simpl. lia. Qed.

Lemma chain_sorted a b rest :
  (a ≤ b)%Z → Sorted Z.lt (b :: rest) → (rest = [] → (a < b)%Z) →
  Sorted Qlt (chain a b rest).
Proof.
  revert a b. induction rest as [|c rest IH]; intros a b Hab Hs Hstrict.
  - simpl. repeat constructor. by apply midpoint_lt_last, Hstrict.
  - apply Sorted_inv in Hs as [Hs Hbc]. apply HdRel_inv in Hbc.
    simpl. constructor.
    + apply IH; [lia|done|]. intros ->. done.
    + destruct (chain_head b c rest) as [tl ->]. constructor.
      apply midpoint_lt. lia.
Qed.

Lemma chain_bins a b rest i v :
  (a ≤ b)%Z → Sorted Z.lt (b :: rest) → (rest = [] → (a < b)%Z) →
  (b :: rest) !! i = Some v →
  ∃ lo hi, chain a b rest !! i = Some lo ∧ chain a b rest !! S i = Some hi ∧
           (lo <= inject_Z v)%Q ∧ (inject_Z v < hi)%Q.
Proof.
  revert a b i. induction rest as [|c rest IH]; intros a b i Hab Hs Hstrict Hv.
  - destruct i as [|i]; [|done]. injection Hv as <-. simpl.
    eexists _, _. repeat split; [by apply midpoint_le_r|by apply last_gt, Hstrict].
  - apply Sorted_inv in Hs as [Hs Hbc]. apply HdRel_inv in Hbc.
    destruct i as [|i].
    + injection Hv as <-. simpl. destruct (chain_head b c rest) as [tl ->].
      eexists _, _. repeat split; [by apply midpoint_le_r|by apply midpoint_gt_l].
    + simpl in Hv. simpl. apply IH; [lia|done| |done]. intros ->. done.
Qed.

(** X15.  One more bound than there are values; no bounds for no value. *)
Theorem bounds_count (vals : list Z) :
  (vals = [] → bounds vals = Raise (Exception "IndexError" "list index out of range")) ∧
  (vals ≠ [] → ∃ bs, bounds vals = Ok bs ∧ length bs = S (length vals)).
Proof.
  split; [by intros ->|]. intros Hv. destruct vals as [|v vals]; [done|].
  exists (chain 0 v vals). split; [apply bounds_of_bins_chain|apply chain_length].
Qed.

(** X16.  For the sorted distinct codes of a raster the bounds increase strictly,
    as the colour norm wants them, unless 0 is the only code. *)
Theorem bounds_increase (vals : list Z) :
  Sorted Z.lt vals → Forall pixel_code vals → vals ≠ [] → vals ≠ [0%Z] →
  ∃ bs, bounds vals = Ok bs ∧ Sorted Qlt bs.
Proof.
  intros Hs Hr Hne H0. destruct vals as [|v vals]; [done|].
  exists (chain 0 v vals). split; [apply bounds_of_bins_chain|].
  apply Forall_cons in Hr as [[Hv _] _].
  apply chain_sorted; [done..|]. intros ->.
  destruct (decide (v = 0%Z)) as [->|]; [done|lia].
Qed.

(** X17.  Each code then lies in a bin of its own: from its bound, included, up
    to the next bound, excluded. *)
Theorem bounds_separate_codes (vals : list Z) :
  Sorted Z.lt vals → Forall pixel_code vals → vals ≠ [] → vals ≠ [0%Z] →
  ∃ bs, bounds vals = Ok bs ∧
    ∀ i v, vals !! i = Some v →
      ∃ lo hi, bs !! i = Some lo ∧ bs !! S i = Some hi ∧
               (lo <= inject_Z v)%Q ∧ (inject_Z v < hi)%Q.
Proof.
  intros Hs Hr Hne H0. destruct vals as [|v0 vals]; [done|].
  exists (chain 0 v0 vals). split; [apply bounds_of_bins_chain|].
  apply Forall_cons in Hr as [[Hv _] _].
  intros i v Hi. apply chain_bins; [done..| |done]. intros ->.
  destruct (decide (v0 = 0%Z)) as [->|]; [done|lia].
Qed.

(** With 0 as the only code the two bounds coincide. *)
Example bounds_of_zero : bounds [0%Z] = Ok [midpoint 0 0; 0%Q].
Proof. reflexivity. Qed.

(** *** The theorems at work *)

Lemma sample_codes_sorted : Sorted Z.lt sample_codes.
Proof. repeat constructor. Qed.

Lemma sample_codes_pixel_codes : Forall pixel_code sample_codes.
Proof. repeat constructor; unfold pixel_code in *; lia. Qed.

Lemma bounds_increase_witness :
  Sorted Z.lt sample_codes ∧ Forall pixel_code sample_codes ∧
  sample_codes ≠ [] ∧ sample_codes ≠ [0%Z] ∧
  ∃ bs, bounds sample_codes = Ok bs ∧ Sorted Qlt bs.
Proof.
  split; [apply sample_codes_sorted|]. split; [apply sample_codes_pixel_codes|].
  split; [done|]. split; [done|].
  apply bounds_increase;
    [apply sample_codes_sorted|apply sample_codes_pixel_codes|done|done].
Defined.

Lemma bounds_separate_codes_witness :
  Sorted Z.lt sample_codes ∧ Forall pixel_code sample_codes ∧
  sample_codes ≠ [] ∧ sample_codes ≠ [0%Z] ∧
  ∃ bs, bounds sample_codes = Ok bs ∧
    ∀ i v, sample_codes !! i = Some v →
      ∃ lo hi, bs !! i = Some lo ∧ bs !! S i = Some hi ∧
               (lo <= inject_Z v)%Q ∧ (inject_Z v < hi)%Q.
Proof.
  split; [apply sample_codes_sorted|]. split; [apply sample_codes_pixel_codes|].
  split; [done|]. split; [done|].
  apply bounds_separate_codes;
    [apply sample_codes_sorted|apply sample_codes_pixel_codes|done|done].
Defined.

Example scenario_bounds :
  bounds sample_codes
  = Ok [midpoint 0 1; midpoint 1 66; midpoint 66 68; midpoint 68 322; inject_Z 576].
Proof. reflexivity. Qed.

End CloudMasksSpec.
